(** * voiceink-to-notion: the synchronisation core, embedded and verified

    A shallow embedding of the Python sources

      - [voiceink_reader.py]  (record identifiers, [read_transcriptions]),
      - [notion_client.py]    ([NotionClient.create_transcription_page]),
      - [sync_tracker.py]     ([SyncState], [load_sync_state], [save_sync_state]),
      - [main.py]             ([sync_command] and its closure [do_sync]),

    followed by the properties of the specification that concern them.

    Python strings are [string]s, the set of synced identifiers is a
    [gset string], dictionaries sent to the remote API are [gmap]s, and the
    effects of the program (HTTP requests, the state file, the shared
    [SyncState] object) are threaded through an explicit [world]. *)

From Stdlib Require Import ZArith NArith Lia List Ascii String.
From Stdlib Require Import DecimalString DecimalN.
From stdpp Require Import base decidable option list strings gmap.

Local Open Scope string_scope.
Local Open Scope list_scope.
Set Warnings "-register-all,-clear-no-such-hyp".

(** ** Python string slicing *)

Module Py.

(** [s[:n]] *)
Fixpoint str_take (n : nat) (s : string) : string :=
  match n, s with
  | S n', String c s' => String c (str_take n' s')
  | _, _ => EmptyString
  end.

(** [s[n:]] *)
Fixpoint str_drop (n : nat) (s : string) : string :=
  match n, s with
  | S n', String _ s' => str_drop n' s'
  | _, _ => s
  end.

(** [s[a:b]] for [a <= b] *)
Definition slice (a b : nat) (s : string) : string :=
  str_take (b - a) (str_drop a s).

(** Truthiness of a string: [bool(s)] *)
Definition str_truthy (s : string) : bool :=
  match s with EmptyString => false | String _ _ => true end.

(** Truthiness of [str | None] *)
Definition opt_str_truthy (o : option string) : bool :=
  match o with Some s => str_truthy s | None => false end.

(** [str(n)] for an integer: decimal digits, most significant first, with a
    leading minus sign for negative numbers. *)
Definition digit_char (d : N) : ascii :=
  Ascii.ascii_of_N (48 + d).

Fixpoint digits_loop (fuel : nat) (n : N) (acc : string) : string :=
  match fuel with
  | O => acc
  | S fuel' =>
      let acc' := String (digit_char (n mod 10)) acc in
      if (n / 10 =? 0)%N then acc' else digits_loop fuel' (n / 10)%N acc'
  end.

Definition str_of_N (n : N) : string :=
  digits_loop (S (N.to_nat (N.log2 n))) n EmptyString.

Definition str_of_Z (z : Z) : string :=
  match z with
  | Z0 => "0"
  | Zpos p => str_of_N (Npos p)
  | Zneg p => String "-" (str_of_N (Npos p))
  end.

End Py.

(** ** voiceink_reader.py: record identifiers *)

(** Lines 113-117 of [read_transcriptions]:
<<
    record_id = row["ZID_HEX"] or str(row["Z_PK"])
    if record_id and len(record_id) == 32:
        record_id = f"{record_id[:8]}-{record_id[8:12]}-{record_id[12:16]}-{record_id[16:20]}-{record_id[20:]}"
>>
    [ZID_HEX] is [hex(ZID)], which SQLite hands back as text, or NULL
    ([None]); [Z_PK] is the integer primary key of the row. *)
Definition format_uuid (record_id : string) : string :=
  Py.slice 0 8 record_id +:+ "-" +:+
  Py.slice 8 12 record_id +:+ "-" +:+
  Py.slice 12 16 record_id +:+ "-" +:+
  Py.slice 16 20 record_id +:+ "-" +:+
  Py.str_drop 20 record_id.

Definition record_id (zid_hex : option string) (z_pk : Z) : string :=
  let record_id :=
    match zid_hex with
    | Some hex => if Py.str_truthy hex then hex else Py.str_of_Z z_pk
    | None => Py.str_of_Z z_pk
    end in
  if Py.str_truthy record_id && (String.length record_id =? 32)%nat
  then format_uuid record_id
  else record_id.

(** ** JSON values, as [json.loads] and [response.json()] produce them *)

(** The members of an object are listed in the order of the text; as in
    [json.loads], the last binding of a repeated key is the one that counts.
    Numbers carry an integer: only their truthiness is ever looked at. *)
Inductive json : Type :=
  | JNull
  | JBool (b : bool)
  | JNum (n : Z)
  | JStr (s : string)
  | JArr (items : list json)
  | JObj (members : list (string * json)).

(** [d.get(key)] on a dict; [None] stands for the missing key. *)
Fixpoint dict_get (key : string) (members : list (string * json)) : option json :=
  match members with
  | [] => None
  | (k, v) :: rest =>
      match dict_get key rest with
      | Some v' => Some v'
      | None => if String.eqb k key then Some v else None
      end
  end.

(** [bool(v)] *)
Definition truthy (v : json) : bool :=
  match v with
  | JNull => false
  | JBool b => b
  | JNum n => negb (n =? 0)%Z
  | JStr s => Py.str_truthy s
  | JArr [] => false
  | JArr (_ :: _) => true
  | JObj [] => false
  | JObj (_ :: _) => true
  end.

(** [bool(r)] for [r : dict | None] *)
Definition opt_truthy (r : option json) : bool :=
  match r with Some v => truthy v | None => false end.

(** ** notion_client.py: what is sent to [POST /pages] *)

Inductive prop_value (F : Type) : Type :=
  | Title (content : string)       (* {"title": [{"text": {"content": _}}]} *)
  | RichText (content : string)    (* {"rich_text": [{"text": {"content": _}}]} *)
  | Date (start : string)          (* {"date": {"start": _}} *)
  | Number (n : F).                (* {"number": _} *)
Arguments Title {F} content.
Arguments RichText {F} content.
Arguments Date {F} start.
Arguments Number {F} n.

Inductive block : Type :=
  | Paragraph (content : string)
  | Heading2 (content : string).

Record page_payload (F : Type) : Type := mk_payload {
  parent_database_id : string;
  properties : gmap string (prop_value F);
  children : list block
}.
Arguments mk_payload {F} _ _ _.
Arguments parent_database_id {F} _.
Arguments properties {F} _.
Arguments children {F} _.

(** The outcome of one [self._client.post(...)]: a response with its status
    code and the value [response.json()] decodes from its body, a response
    whose body is not JSON, or an [httpx.HTTPError] raised by the transport. *)
Inductive http_result : Type :=
  | Response (status_code : Z) (body : json)
  | NonJson (status_code : Z)
  | HTTPError.

(** The exceptions that leave the functions below uncaught.
    [JSONDecodeError] is what [response.json()] raises on a body that is
    not JSON, [UnicodeDecodeError] what [read_text] raises on bytes that are
    not text; neither is an [httpx.HTTPError]. *)
Inductive exn : Type :=
  | AttributeError
  | TypeError
  | ValueError
  | JSONDecodeError
  | UnicodeDecodeError.

(** ** What the program takes from its libraries and from the outside

    [datetime] and [float] values are only moved around, formatted and
    parsed; the remote service and the clock form the environment [env].
    [datetime.fromtimestamp] raises ([OverflowError], [OSError] or
    [ValueError]) on a number of seconds it cannot represent:
    [timestamp_in_range v] tells whether it accepts the Core Data value [v],
    and [from_core_data v] is the result when it does.
    [get_all_synced_ids] is [NotionClient.get_all_synced_ids] taken at its
    interface: a call answers with a set of identifiers. *)
Class Platform : Type := {
  datetime : Type;
  float : Type;
  isoformat : datetime -> string;
  fromisoformat : string -> option datetime;   (* [None]: ValueError *)
  float_zero : float;                          (* 0.0 *)
  float_truthy : float -> bool;
  round2 : float -> float;                     (* round(x, 2) *)
  from_core_data : float -> datetime;          (* epoch 2001-01-01 + seconds *)
  timestamp_in_range : float -> bool;          (* [fromtimestamp] takes the sum *)
  env : Type;
  now : env -> datetime;                       (* datetime.now() *)
  post_pages : env -> page_payload float -> env * http_result;
  get_all_synced_ids : env -> env * gset string
}.

(** ** notion_client.py: building the page *)

(** The loop of lines 250-260 (and 270-280 for the enhanced text):
<<
    remaining_text = text
    while remaining_text:
        chunk = remaining_text[:2000]
        remaining_text = remaining_text[2000:]
        children.append(paragraph(chunk))
>>
    [fuel] bounds the number of iterations; [split_text] starts the loop with
    the length of the text, which is always enough ([split_loop_fuel]). *)
Fixpoint split_loop (size fuel : nat) (remaining_text : string) : list string :=
  match fuel with
  | O => []
  | S fuel' =>
      if Py.str_truthy remaining_text
      then Py.str_take size remaining_text
             :: split_loop size fuel' (Py.str_drop size remaining_text)
      else []
  end.

Definition CHUNK_SIZE : nat := 2000.
Definition MAX_CHILDREN : nat := 100.
Definition TITLE_SIZE : nat := 100.

Definition split_text (text : string) : list string :=
  split_loop CHUNK_SIZE (String.length text) text.

Definition paragraphs (text : string) : list block :=
  Paragraph <$> split_text text.

(** [children] as it stands before line 282. *)
Definition page_children (text : string) (enhanced_text : option string) : list block :=
  (paragraphs text ++
   match enhanced_text with
   | Some enhanced =>
       if Py.str_truthy enhanced
       then Heading2 "Enhanced Version" :: paragraphs enhanced
       else []
   | None => []
   end)%list.

(** [text[:100] + "..." if len(text) > 100 else text] *)
Definition page_title (text : string) : string :=
  if (TITLE_SIZE <? String.length text)%nat
  then Py.str_take TITLE_SIZE text +:+ "..."
  else text.

Record NotionClient : Type := mk_client {
  database_id : string;          (* self.config.database_id *)
  title_property : string        (* self._title_property *)
}.

Section Program.
Context {P : Platform}.

(** *** voiceink_reader.py *)

Record Transcription : Type := mk_transcription {
  id : string;
  text : string;
  enhanced_text : option string;
  timestamp : datetime;
  duration : float;
  prompt_name : option string;
  power_mode_name : option string
}.

(** One row of the query of [read_transcriptions]; the [WHERE] and
    [ORDER BY] clauses are SQLite's work and have been applied. *)
Record Row : Type := mk_row {
  Z_PK : Z;
  ZID_HEX : option string;
  ZTEXT : string;
  ZENHANCEDTEXT : option string;
  ZTIMESTAMP : option float;
  ZDURATION : option float;
  ZPROMPTNAME : option string;
  ZPOWERMODENAME : option string
}.

(** What opening and querying the database file yields: an [sqlite3.Error]
    or the rows. *)
Inductive database : Type :=
  | SqliteError
  | Rows (rows : list Row).

Definition _parse_swiftdata_timestamp (e : env) (value : option float) : datetime :=
  match value with
  | None => now e
  | Some v => from_core_data v
  end.

Definition read_row (e : env) (row : Row) : Transcription :=
  {| id := record_id (ZID_HEX row) (Z_PK row);
     text := ZTEXT row;
     enhanced_text := ZENHANCEDTEXT row;
     timestamp := _parse_swiftdata_timestamp e (ZTIMESTAMP row);
     duration := match ZDURATION row with
                 | Some d => if float_truthy d then d else float_zero
                 | None => float_zero
                 end;
     prompt_name := ZPROMPTNAME row;
     power_mode_name := ZPOWERMODENAME row |}.

(** Whether [_parse_swiftdata_timestamp] returns for the row. *)
Definition row_in_range (row : Row) : bool :=
  match ZTIMESTAMP row with
  | None => true
  | Some v => timestamp_in_range v
  end.

(** [None] is an exception: the [RuntimeError] raised on [sqlite3.Error],
    or what [datetime.fromtimestamp] raises on the first row whose timestamp
    is out of range, which leaves the loop and the function. *)
Definition read_transcriptions (e : env) (db : database) : option (list Transcription) :=
  match db with
  | SqliteError => None
  | Rows rows =>
      if forallb row_in_range rows then Some (read_row e <$> rows) else None
  end.

(** *** Events: what the program does to the outside, in order *)

Inductive event : Type :=
  | ListExistingIds                                   (* client.get_all_synced_ids() *)
  | Upload (t : Transcription)                        (* client.create_transcription_page(...) for [t] *)
  | Post (payload : page_payload float) (r : http_result)  (* one POST /pages *)
  | Save (data : json).                               (* state_file.write_text(json.dumps(data)) *)

(** *** notion_client.py: [NotionClient.create_transcription_page] *)

Definition full_properties (self : NotionClient) (text : string)
    (timestamp : datetime) (duration : float) (voiceink_id : option string)
    : gmap string (prop_value float) :=
  let properties :=
    <["Duration" := Number (round2 duration)]>
      (<["Timestamp" := Date (isoformat timestamp)]>
         (<["Text" := RichText (Py.str_take CHUNK_SIZE text)]>
            {[ title_property self := Title (page_title text) ]})) in
  match voiceink_id with
  | Some voiceink_id =>
      if Py.str_truthy voiceink_id
      then <["VoiceInk ID" := RichText voiceink_id]> properties
      else properties
  | None => properties
  end.

Definition minimal_properties (self : NotionClient) (text : string)
    : gmap string (prop_value float) :=
  {[ title_property self := Title (page_title text) ]}.

Definition full_payload (self : NotionClient) (text : string)
    (timestamp : datetime) (duration : float) (enhanced_text : option string)
    (voiceink_id : option string) : page_payload float :=
  mk_payload (database_id self)
    (full_properties self text timestamp duration voiceink_id)
    (take MAX_CHILDREN (page_children text enhanced_text)).

Definition minimal_payload (self : NotionClient) (text : string)
    (enhanced_text : option string) : page_payload float :=
  mk_payload (database_id self)
    (minimal_properties self text)
    (take MAX_CHILDREN (page_children text enhanced_text)).

(** What a call of the method comes to: the [dict | None] it returns, or
    an exception that leaves it. *)
Inductive page_result : Type :=
  | Returned (result : option json)
  | Escaped (e : exn).

(** Lines 296-304: the request with the minimal properties, made after the
    full request was answered by [response] with a status other than 200. *)
Definition retry_minimal (self : NotionClient) (text : string)
    (enhanced_text : option string) (payload : page_payload float)
    (response : http_result) (e1 : env) : page_result * env * list event :=
  let minimal_payload := minimal_payload self text enhanced_text in
  let sent := [Post payload response] in
  match post_pages e1 minimal_payload with
  | (e2, HTTPError) =>
      (Returned None, e2, (sent ++ [Post minimal_payload HTTPError])%list)
  | (e2, Response status_code2 body2) =>
      (Returned (if (status_code2 =? 200)%Z then Some body2 else None),
       e2, (sent ++ [Post minimal_payload (Response status_code2 body2)])%list)
  | (e2, NonJson status_code2) =>
      (if (status_code2 =? 200)%Z then Escaped JSONDecodeError else Returned None,
       e2, (sent ++ [Post minimal_payload (NonJson status_code2)])%list)
  end.

(** Lines 288-309.  The result is what the call comes to, the environment
    after the requests, and the requests made.  [response.json()] is called
    inside the [try], whose [except] clause names [httpx.HTTPError] only:
    when the body of an answer with status 200 is not JSON, the
    [json.JSONDecodeError] leaves the method. *)
Definition create_transcription_page (self : NotionClient) (text : string)
    (timestamp : datetime) (duration : float) (enhanced_text : option string)
    (prompt_name : option string) (voiceink_id : option string) (e : env)
    : page_result * env * list event :=
  let payload := full_payload self text timestamp duration enhanced_text voiceink_id in
  match post_pages e payload with
  | (e1, HTTPError) => (Returned None, e1, [Post payload HTTPError])
  | (e1, Response status_code body) =>
      if (status_code =? 200)%Z
      then (Returned (Some body), e1, [Post payload (Response status_code body)])
      else retry_minimal self text enhanced_text payload (Response status_code body) e1
  | (e1, NonJson status_code) =>
      if (status_code =? 200)%Z
      then (Escaped JSONDecodeError, e1, [Post payload (NonJson status_code)])
      else retry_minimal self text enhanced_text payload (NonJson status_code) e1
  end.

(** *** sync_tracker.py *)

Record SyncState : Type := mk_state {
  synced_ids : gset string;
  last_sync_time : option datetime;
  notion_cache_populated : bool
}.

(** [SyncState()] *)
Definition SyncState_default : SyncState :=
  {| synced_ids := ∅; last_sync_time := None; notion_cache_populated := false |}.

(** [self.synced_ids.add(voiceink_id); self.last_sync_time = datetime.now()],
    the clock having been read as [t]. *)
Definition mark_synced (self : SyncState) (voiceink_id : string) (t : datetime) : SyncState :=
  {| synced_ids := {[ voiceink_id ]} ∪ synced_ids self;
     last_sync_time := Some t;
     notion_cache_populated := notion_cache_populated self |}.

Definition is_synced (self : SyncState) (voiceink_id : string) : bool :=
  bool_decide (voiceink_id ∈ synced_ids self).

Definition merge_notion_ids (self : SyncState) (notion_ids : gset string) : SyncState :=
  {| synced_ids := synced_ids self ∪ notion_ids;
     last_sync_time := last_sync_time self;
     notion_cache_populated := true |}.

(** The state file as [json.loads(state_file.read_text())] sees it: bytes
    that are not text ([read_text] raises [UnicodeDecodeError]), text that
    does not parse ([json.JSONDecodeError]) or a JSON document.  A missing
    file is [None] of [option state_file]. *)
Inductive state_file : Type :=
  | NotText
  | Unparsable
  | Document (data : json).

(** The dict written by [save_sync_state]; [json.dumps] followed by
    [json.loads] hands back the same document. *)
Definition state_data (state : SyncState) : json :=
  JObj [ ("synced_ids", JArr (JStr <$> elements (synced_ids state)));
         ("last_sync_time",
            match last_sync_time state with
            | Some t => JStr (isoformat t)
            | None => JNull
            end);
         ("notion_cache_populated", JBool (notion_cache_populated state)) ].

Definition save_sync_state (state : SyncState) : state_file :=
  Document (state_data state).

(** [set(v)]: the members when they are all strings, [SetOther] for a set
    with members of another type, or the [TypeError] of a value that cannot
    be iterated or of a member that cannot be hashed. *)
Inductive set_outcome : Type :=
  | SetOf (ids : gset string)
  | SetOther
  | SetRaises (e : exn).

Definition hashable (v : json) : bool :=
  match v with JArr _ | JObj _ => false | _ => true end.

Definition as_str (v : json) : option string :=
  match v with JStr s => Some s | _ => None end.

Fixpoint chars (s : string) : list string :=
  match s with
  | EmptyString => []
  | String c s' => String c EmptyString :: chars s'
  end.

Definition py_set (v : json) : set_outcome :=
  match v with
  | JArr items =>
      if forallb hashable items
      then match mapM as_str items with
           | Some l => SetOf (list_to_set l)
           | None => SetOther
           end
      else SetRaises TypeError
  | JStr s => SetOf (list_to_set (chars s))
  | JObj members => SetOf (list_to_set (members.*1))
  | JNull | JBool _ | JNum _ => SetRaises TypeError
  end.

(** What a call of [load_sync_state] does: it returns a state, it returns
    an object whose fields hold values outside the annotations of
    [SyncState] (members that are not strings, a flag that is not a
    boolean), or an exception escapes. *)
Inductive load_outcome : Type :=
  | Returns (state : SyncState)
  | ReturnsOther
  | Raises (e : exn).

Definition load_sync_state (file : option state_file) : load_outcome :=
  match file with
  | None => Returns SyncState_default                (* not state_file.exists() *)
  | Some NotText => Raises UnicodeDecodeError        (* not caught on line 56 *)
  | Some Unparsable => Returns SyncState_default     (* except json.JSONDecodeError *)
  | Some (Document (JObj data)) =>
      match py_set (default (JArr []) (dict_get "synced_ids" data)) with
      | SetRaises e => Raises e
      | ids =>
          let flag := default (JBool false) (dict_get "notion_cache_populated" data) in
          let finish (t : option datetime) :=
            match ids, flag with
            | SetOf s, JBool b =>
                Returns {| synced_ids := s; last_sync_time := t;
                           notion_cache_populated := b |}
            | _, _ => ReturnsOther
            end in
          let v := default JNull (dict_get "last_sync_time" data) in
          if truthy v
          then match v with
               | JStr s =>
                   match fromisoformat s with
                   | Some t => finish (Some t)
                   | None => Raises ValueError
                   end
               | _ => Raises TypeError
               end
          else finish None
      end
  | Some (Document _) => Raises AttributeError       (* data.get on a non-dict *)
  end.

(** *** main.py: [sync_command] from line 153 on *)

(** The environment, the [state] object shared by [sync_command] and its
    closure [do_sync], the state file, the events so far, and the exception
    on its way out of [sync_command], if one has been raised and not caught:
    from then on nothing more is done. *)
Record world : Type := mk_world {
  w_env : env;
  w_state : SyncState;
  w_disk : option state_file;
  w_trace : list event;
  w_raised : option exn
}.

(** [save_sync_state(state)] *)
Definition save (w : world) : world :=
  {| w_env := w_env w;
     w_state := w_state w;
     w_disk := Some (save_sync_state (w_state w));
     w_trace := (w_trace w ++ [Save (state_data (w_state w))])%list;
     w_raised := w_raised w |}.

(** Lines 156-162. *)
Definition bootstrap (w : world) : world :=
  if notion_cache_populated (w_state w) then w
  else
    let '(e, notion_ids) := get_all_synced_ids (w_env w) in
    let trace := (w_trace w ++ [ListExistingIds])%list in
    if bool_decide (notion_ids = ∅)
    then {| w_env := e; w_state := w_state w; w_disk := w_disk w; w_trace := trace;
            w_raised := w_raised w |}
    else save {| w_env := e;
                 w_state := merge_notion_ids (w_state w) notion_ids;
                 w_disk := w_disk w;
                 w_trace := trace;
                 w_raised := w_raised w |}.

(** Line 173. *)
Definition unsynced (state : SyncState) (transcriptions : list Transcription)
    : list Transcription :=
  List.filter (fun t => negb (is_synced state (id t))) transcriptions.

(** One turn of the loop of lines 181-198; the boolean is [bool(result)].
    When the upload raises, the turn ends there: nothing is marked, nothing
    counted, and the exception is on its way out. *)
Definition sync_one (client : NotionClient) (t : Transcription) (w : world)
    : bool * world :=
  let '(result, e, posts) :=
    create_transcription_page client (text t) (timestamp t) (duration t)
      (enhanced_text t) (prompt_name t) (Some (id t)) (w_env w) in
  let trace := (w_trace w ++ Upload t :: posts)%list in
  match result with
  | Escaped exc =>
      (false,
       {| w_env := e; w_state := w_state w; w_disk := w_disk w; w_trace := trace;
          w_raised := Some exc |})
  | Returned result =>
      if opt_truthy result
      then (true,
            save {| w_env := e;
                    w_state := mark_synced (w_state w) (id t) (now e);
                    w_disk := w_disk w;
                    w_trace := trace;
                    w_raised := w_raised w |})
      else (false,
            {| w_env := e; w_state := w_state w; w_disk := w_disk w; w_trace := trace;
               w_raised := w_raised w |})
  end.

(** The loop itself, with its counter.  A turn is taken only while no
    exception is on its way out: the records after an upload that raised
    are not reached. *)
Fixpoint drain (client : NotionClient) (unsynced : list Transcription)
    (synced_count : nat) (w : world) : nat * world :=
  match unsynced with
  | [] => (synced_count, w)
  | t :: rest =>
      match w_raised w with
      | Some _ => (synced_count, w)
      | None =>
          let '(ok, w') := sync_one client t w in
          drain client rest (if ok then S synced_count else synced_count) w'
      end
  end.

(** [do_sync]: one cycle, on the database as it is when the cycle reads it.
    Every exception of [read_transcriptions] is caught here (line 168).  When
    the result has [w_raised] set, the call has not returned: the number is
    the value of [synced_count] when the exception left the loop. *)
Definition do_sync (client : NotionClient) (db : database) (w : world) : nat * world :=
  match read_transcriptions (w_env w) db with
  | None => (0, w)
  | Some transcriptions =>
      match unsynced (w_state w) transcriptions with
      | [] => (0, w)
      | t :: rest => drain client (t :: rest) 0 w
      end
  end.

(** [sync_command] with [--once]: the bootstrap, then one cycle. *)
Definition sync_once (client : NotionClient) (db : database) (w : world) : nat * world :=
  do_sync client db (bootstrap w).

(** The continuous mode, cut after finitely many cycles: the bootstrap, then
    one [do_sync] for each successive content of the database. *)
Fixpoint cycles (client : NotionClient) (dbs : list database) (w : world) : world :=
  match dbs with
  | [] => w
  | db :: later => cycles client later (do_sync client db w).2
  end.

Definition sync_always (client : NotionClient) (dbs : list database) (w : world) : world :=
  cycles client dbs (bootstrap w).

End Program.

(** ** Definitions used to state the properties *)

(** The sizes of the chunks cut from a text of [len] units, computed on
    lengths alone. *)
Fixpoint chunk_sizes (size fuel len : nat) : list nat :=
  match fuel with
  | O => []
  | S fuel' =>
      if (len =? 0)%nat then []
      else Nat.min size len :: chunk_sizes size fuel' (len - size)
  end.

(** The chunks put back together. *)
Definition join (chunks : list string) : string :=
  foldr String.append EmptyString chunks.

(** [out] is [s], of 32 units, cut into groups of 8, 4, 4, 4 and 12 units
    separated by dashes. *)
Definition dashed_8_4_4_4_12 (s out : string) : Prop :=
  exists a b c d e : string,
    s = a +:+ b +:+ c +:+ d +:+ e /\
    String.length a = 8 /\ String.length b = 4 /\ String.length c = 4 /\
    String.length d = 4 /\ String.length e = 12 /\
    out = a +:+ "-" +:+ b +:+ "-" +:+ c +:+ "-" +:+ d +:+ "-" +:+ e.

(** The value of a decimal digit; [None] for any other character. *)
Definition digit_value (c : ascii) : option N :=
  let n := Ascii.N_of_ascii c in
  if (48 <=? n)%N && (n <=? 57)%N then Some (n - 48)%N else None.

(** The number that digits denote, most significant first, after digits
    that denote [acc]. *)
Fixpoint decimal_from (acc : N) (s : string) : option N :=
  match s with
  | EmptyString => Some acc
  | String c rest =>
      match digit_value c with
      | Some d => decimal_from (10 * acc + d) rest
      | None => None
      end
  end.

(** The integer that a string denotes in decimal: one digit or more, after
    a minus sign for the opposite. *)
Definition decimal (s : string) : option Z :=
  match s with
  | EmptyString => None
  | String c rest =>
      if Ascii.eqb c "-"
      then if Py.str_truthy rest
           then (fun n => (- Z.of_N n)%Z) <$> decimal_from 0 rest
           else None
      else Z.of_N <$> decimal_from 0 s
  end.

(** The text of a block. *)
Definition block_content (b : block) : string :=
  match b with Paragraph c | Heading2 c => c end.

(** [n] copies of a character. *)
Fixpoint str_repeat (c : ascii) (n : nat) : string :=
  match n with
  | O => EmptyString
  | S n' => String c (str_repeat c n')
  end.

Section Observations.
Context {P : Platform}.

(** The records for which the events call the upload operation. *)
Definition uploads (trace : list event) : list Transcription :=
  omap (fun ev => match ev with Upload t => Some t | _ => None end) trace.

(** The requests among the events. *)
Definition posts (trace : list event) : list (page_payload float * http_result) :=
  omap (fun ev => match ev with Post p r => Some (p, r) | _ => None end) trace.


(** The outcome [bool(result)] of each turn the loop takes, in order; a
    turn whose upload raises counts as [false] and is the last. *)
Fixpoint outcomes (client : NotionClient) (records : list Transcription)
    (w : world) : list bool :=
  match records with
  | [] => []
  | t :: rest =>
      match w_raised w with
      | Some _ => []
      | None =>
          let '(ok, w') := sync_one client t w in
          ok :: outcomes client rest w'
      end
  end.

(** The identifiers of the records whose upload succeeded. *)
Fixpoint succeeded (client : NotionClient) (records : list Transcription)
    (w : world) : list string :=
  match records with
  | [] => []
  | t :: rest =>
      match w_raised w with
      | Some _ => []
      | None =>
          let '(ok, w') := sync_one client t w in
          if ok then id t :: succeeded client rest w'
          else succeeded client rest w'
      end
  end.

(** The identifiers recorded in the state file. *)
Definition ids_on_disk (file : option state_file) : gset string :=
  match file with
  | Some (Document (JObj data)) =>
      match py_set (default (JArr []) (dict_get "synced_ids" data)) with
      | SetOf ids => ids
      | _ => ∅
      end
  | _ => ∅
  end.

(** The records a cycle sets out to upload: the unsynced records of its
    snapshot, none when the snapshot cannot be read. *)
Definition attempted (db : database) (w : world) : list Transcription :=
  match read_transcriptions (w_env w) db with
  | None => []
  | Some transcriptions => unsynced (w_state w) transcriptions
  end.

(** The events added to [before] to reach [after]. *)
Definition new_events (before after : list event) : list event :=
  drop (length before) after.

(** A request counts as accepted when it is answered with status 200. *)
Definition accepted (r : http_result) : bool :=
  match r with
  | Response status_code _ | NonJson status_code => (status_code =? 200)%Z
  | HTTPError => false
  end.


End Observations.

(** ** A scripted environment

    The remote service answers the successive requests from a script, the
    clock counts the requests, and the destination holds a given set of
    identifiers.  Times are counts of microseconds written in decimal after a
    ["T"]; durations are hundredths of a second. *)
Module Scripted.

Record scripted_env : Type := mk_env {
  answers : list http_result;
  clock : N;
  remote_ids : gset string
}.

Definition print_time (t : N) : string :=
  String "T" (DecimalString.NilEmpty.string_of_uint (N.to_uint t)).

Definition parse_time (s : string) : option N :=
  match s with
  | String "T" digits =>
      N.of_uint <$> DecimalString.NilEmpty.uint_of_string digits
  | _ => None
  end.

Definition answer {F : Type} (e : scripted_env) (payload : page_payload F)
    : scripted_env * http_result :=
  match answers e with
  | [] => (e, HTTPError)
  | r :: later =>
      ({| answers := later; clock := N.succ (clock e); remote_ids := remote_ids e |}, r)
  end.

Definition platform : Platform := {|
  datetime := N;
  float := Z;
  isoformat := print_time;
  fromisoformat := parse_time;
  float_zero := 0%Z;
  float_truthy := fun z => negb (z =? 0)%Z;
  round2 := fun z => z;
  from_core_data := Z.to_N;
  timestamp_in_range := fun z => (0 <=? z)%Z;
  env := scripted_env;
  now := clock;
  post_pages := answer;
  get_all_synced_ids := fun e => (e, remote_ids e)
|}.

#[local] Existing Instance platform.

Definition client : NotionClient := mk_client "0f3e" "Name".

Definition page : json := JObj [("object", JStr "page")].
Definition refusal : json := JObj [("object", JStr "error")].

(** A row with a primary key and a text, and nothing else. *)
Definition row (pk : Z) (text : string) : @Row platform :=
  mk_row pk None text None None None None None.

Definition three_rows : @database platform :=
  Rows [row 1 "first"; row 2 "second"; row 3 "third"].

(** The world at the start: nothing in the trace. *)
Definition start (script : list http_result) (remote : gset string)
    (state : @SyncState platform) (file : option state_file)
    : @world platform :=
  {| w_env := {| answers := script; clock := 0; remote_ids := remote |};
     w_state := state;
     w_disk := file;
     w_trace := [];
     w_raised := None |}.

Definition record (w : @world platform) (pk : Z) (text : string)
    : @Transcription platform :=
  read_row (w_env w) (row pk text).

(** The second record is refused twice, the others are accepted. *)
Definition second_refused : @world platform :=
  start [Response 200 page; Response 400 refusal; Response 400 refusal;
         Response 200 page]
        ∅ SyncState_default None.

(** The first record is known already. *)
Definition first_known : @world platform :=
  start [Response 200 page; Response 200 page] ∅
        {| synced_ids := {[ "1" ]}; last_sync_time := None;
           notion_cache_populated := true |}
        None.

(** The destination holds two pages, nothing is known locally. *)
Definition fresh_install : @world platform :=
  start [] {[ "A"; "B" ]} SyncState_default None.

(** No request gets through. *)
Definition offline : scripted_env :=
  {| answers := []; clock := 0; remote_ids := ∅ |}.




End Scripted.

(** ** Further observations on the events *)

Section MoreObservations.
Context {P : Platform}.

(** The number of calls of [client.get_all_synced_ids()] among the events. *)
Definition list_calls (trace : list event) : nat :=
  length (omap (fun ev => match ev with ListExistingIds => Some tt | _ => None end)
               trace).

(** The documents written to the state file, in order. *)
Definition saves (trace : list event) : list json :=
  omap (fun ev => match ev with Save data => Some data | _ => None end) trace.

Definition is_post (ev : event) : bool :=
  match ev with Post _ _ => true | _ => false end.

End MoreObservations.

(** ** More scripted worlds *)
Module Scenarios.
Import Scripted.
#[local] Existing Instance Scripted.platform.

(** The destination already holds the first record; nothing is known
    locally. *)
Definition remote_knows_first : world :=
  start [Response 200 page; Response 200 page] {[ "1" ]} SyncState_default None.

(** Every request is accepted. *)
Definition all_accepted : world :=
  start [Response 200 page; Response 200 page; Response 200 page] ∅
        SyncState_default None.

(** A row with a timestamp before the scripted epoch. *)
Definition out_of_range_row : @Row platform :=
  mk_row 2 None "second" None (Some (-5)%Z) None None None.

(** Two rows, the second with a timestamp out of range. *)
Definition second_out_of_range : @database platform :=
  Rows [row 1 "first"; out_of_range_row].

End Scenarios.

(** ** More scripted clients *)
Module Clients.

(** A database whose title column is called ["Text"]. *)
Definition title_named_text : NotionClient := mk_client "0f3e" "Text".

End Clients.

(** Reading a dashed identifier back: the five groups without the dashes. *)
Definition undash_uuid (out : string) : string :=
  Py.slice 0 8 out +:+ Py.slice 9 13 out +:+ Py.slice 14 18 out +:+
  Py.slice 19 23 out +:+ Py.str_drop 24 out.

(** ** notion_client.py: [NotionClient.get_all_synced_ids], lines 156-199

    The bootstrap above takes this function at its interface; here is its
    body.  The answers of [POST /databases/{id}/query] are JSON values read
    with [get], iteration and indexing, each of which raises on a value of
    the wrong kind; only [httpx.HTTPError] is caught. *)
Module Paging.

(** The exceptions that can escape. *)
Inductive uncaught : Type :=
  | Exn (e : exn)
  | KeyError
  | IndexError.

(** The body of a query: [{"page_size": 100}], with ["start_cursor"] when
    there is one. *)
Record query_payload : Type := mk_query {
  page_size : Z;
  start_cursor : option json
}.

(** [x.get(key, dflt)] *)
Definition py_get (x : json) (key : string) (dflt : json) : uncaught + json :=
  match x with
  | JObj members => inr (default dflt (dict_get key members))
  | _ => inl (Exn AttributeError)
  end.

(** The keys of a dict, each once, in the order of their first binding. *)
Fixpoint dict_keys (members : list (string * json)) : list string :=
  match members with
  | [] => []
  | (k, _) :: rest =>
      k :: List.filter (fun k' => negb (String.eqb k k')) (dict_keys rest)
  end.

(** [for page in v]: the values the loop runs through. *)
Definition py_iter (v : json) : uncaught + list json :=
  match v with
  | JArr items => inr items
  | JStr s => inr (JStr <$> chars s)
  | JObj members => inr (JStr <$> dict_keys members)
  | JNull | JBool _ | JNum _ => inl (Exn TypeError)
  end.

(** [v[0]] *)
Definition py_first (v : json) : uncaught + json :=
  match v with
  | JArr (x :: _) => inr x
  | JArr [] => inl IndexError
  | JStr (String c _) => inr (JStr (String c EmptyString))
  | JStr EmptyString => inl IndexError
  | JObj _ => inl KeyError
  | JNull | JBool _ | JNum _ => inl (Exn TypeError)
  end.

(** Lines 182-188 for one page: the value handed to [synced_ids.add], if
    any. *)
Definition page_voiceink_id (page : json) : uncaught + option json :=
  match py_get page "properties" (JObj []) with
  | inl e => inl e
  | inr properties =>
      match py_get properties "VoiceInk ID" (JObj []) with
      | inl e => inl e
      | inr voiceink_id_prop =>
          match py_get voiceink_id_prop "rich_text" (JArr []) with
          | inl e => inl e
          | inr rich_text =>
              if truthy rich_text
              then match py_first rich_text with
                   | inl e => inl e
                   | inr first =>
                       match py_get first "plain_text" (JStr EmptyString) with
                       | inl e => inl e
                       | inr voiceink_id =>
                           inr (if truthy voiceink_id then Some voiceink_id
                                else None)
                       end
                   end
              else inr None
          end
      end
  end.

(** The set being built: its string members, and whether every member is
    a string. *)
Record id_set : Type := mk_ids {
  members : gset string;
  only_strings : bool
}.

(** [synced_ids.add(v)] *)
Definition add_id (v : json) (acc : id_set) : uncaught + id_set :=
  match v with
  | JStr s => inr (mk_ids ({[ s ]} ∪ members acc) (only_strings acc))
  | JArr _ | JObj _ => inl (Exn TypeError)              (* unhashable *)
  | JNull | JBool _ | JNum _ => inr (mk_ids (members acc) false)
  end.

(** The [for] loop of lines 181-188. *)
Fixpoint add_pages (pages : list json) (acc : id_set) : uncaught + id_set :=
  match pages with
  | [] => inr acc
  | page :: rest =>
      match page_voiceink_id page with
      | inl e => inl e
      | inr None => add_pages rest acc
      | inr (Some v) =>
          match add_id v acc with
          | inl e => inl e
          | inr acc' => add_pages rest acc'
          end
      end
  end.

(** What a call comes to: the set, or an exception. *)
Inductive listing : Type :=
  | Listed (ids : id_set)
  | Raised (e : uncaught).

Section Loop.
Variable conn : Type.
Variable post_query : conn -> query_payload -> conn * http_result.

(** The [while True] loop; [fuel] bounds the number of requests and [None]
    is the loop still running when the fuel is spent.  The result comes with
    the connection after the requests and the requests made. *)
Fixpoint query_loop (fuel : nat) (c : conn) (cursor : option json)
    (synced_ids : id_set) (sent : list query_payload)
    : option (listing * conn * list query_payload) :=
  match fuel with
  | O => None
  | S fuel' =>
      let payload :=
        mk_query 100
          (match cursor with
           | Some v => if truthy v then Some v else None
           | None => None
           end) in
      let sent := sent ++ [payload] in
      match post_query c payload with
      | (c1, HTTPError) => Some (Listed synced_ids, c1, sent)
      | (c1, NonJson status_code) =>
          if negb (status_code =? 200)%Z
          then Some (Listed synced_ids, c1, sent)
          else Some (Raised (Exn JSONDecodeError), c1, sent)
      | (c1, Response status_code data) =>
          if negb (status_code =? 200)%Z
          then Some (Listed synced_ids, c1, sent)
          else
            match py_get data "results" (JArr []) with
            | inl e => Some (Raised e, c1, sent)
            | inr results =>
                match py_iter results with
                | inl e => Some (Raised e, c1, sent)
                | inr pages =>
                    match add_pages pages synced_ids with
                    | inl e => Some (Raised e, c1, sent)
                    | inr synced_ids' =>
                        match data with
                        | JObj fields =>
                            let has_more := default JNull (dict_get "has_more" fields) in
                            let next_cursor := default JNull (dict_get "next_cursor" fields) in
                            if truthy has_more && truthy next_cursor
                            then query_loop fuel' c1 (Some next_cursor) synced_ids' sent
                            else Some (Listed synced_ids', c1, sent)
                        | _ => Some (Raised (Exn AttributeError), c1, sent)
                        end
                    end
                end
            end
      end
  end.

Definition get_all_synced_ids (fuel : nat) (c : conn)
    : option (listing * conn * list query_payload) :=
  query_loop fuel c None (mk_ids ∅ true) [].

End Loop.

(** *** Answers of the shape the service gives *)

(** A page whose ["VoiceInk ID"] holds [voiceink_id]; [None] is a page with
    the property left empty. *)
Definition tagged_page (voiceink_id : option string) : json :=
  JObj [("object", JStr "page");
        ("properties",
         JObj [("VoiceInk ID",
                JObj [("type", JStr "rich_text");
                      ("rich_text",
                       match voiceink_id with
                       | Some i => JArr [JObj [("type", JStr "text");
                                               ("plain_text", JStr i)]]
                       | None => JArr []
                       end)])])].

(** A page of another database layout: no ["VoiceInk ID"] at all. *)
Definition untagged_page : json :=
  JObj [("object", JStr "page"); ("properties", JObj [])].

Definition query_answer (pages : list json) (has_more : bool) (next_cursor : json)
    : json :=
  JObj [("object", JStr "list"); ("results", JArr pages);
        ("next_cursor", next_cursor); ("has_more", JBool has_more)].

(** The non-empty ids of a list of tagged pages. *)
Definition page_ids (tags : list (option string)) : gset string :=
  list_to_set (omap (fun tag => match tag with
                                | Some i => if Py.str_truthy i then Some i else None
                                | None => None
                                end) tags).

(** A service that answers from a script, whatever is asked. *)
Definition scripted_query (script : list http_result) (payload : query_payload)
    : list http_result * http_result :=
  match script with
  | [] => ([], HTTPError)
  | r :: later => (later, r)
  end.

(** One answer of a full listing: its pages and the cursor to the next. *)
Definition more_answer (chunk : list (option string) * string) : http_result :=
  Response 200 (query_answer (tagged_page <$> chunk.1) true (JStr chunk.2)).

(** The ids of all the pages of a listing. *)
Definition all_ids (chunks : list (list (option string) * string)) : gset string :=
  ⋃ ((fun chunk => page_ids chunk.1) <$> chunks).

(** The requests that fetch [chunks], the first with [cursor], each of the
    others with the cursor of the answer before. *)
Fixpoint requests_from (cursor : option json)
    (chunks : list (list (option string) * string)) : list query_payload :=
  match chunks with
  | [] => []
  | chunk :: rest =>
      mk_query 100 cursor :: requests_from (Some (JStr chunk.2)) rest
  end.

(** The cursor in hand after [chunks]. *)
Definition final_cursor (cursor : option json)
    (chunks : list (list (option string) * string)) : option json :=
  foldl (fun _ chunk => Some (JStr chunk.2)) cursor chunks.

End Paging.

(** ** notion_client.py: [check_schema] and [setup_schema], lines 89-144 *)
Module Schema.

(** [REQUIRED_PROPERTIES], lines 12-17. *)
Definition REQUIRED_PROPERTIES : list (string * json) :=
  [ ("Text", JObj [("rich_text", JObj [])]);
    ("Timestamp", JObj [("date", JObj [])]);
    ("Duration", JObj [("number", JObj [("format", JStr "number")])]);
    ("VoiceInk ID", JObj [("rich_text", JObj [])]) ].

(** [set(REQUIRED_PROPERTIES.keys())] *)
Definition required : gset string := list_to_set (REQUIRED_PROPERTIES.*1).

(** The result of [check_schema]; the missing names are a set, the order of
    [list(missing)] being that of a Python set. *)
Record SchemaResult : Type := mk_result {
  valid : bool;
  missing_properties : option (gset string);
  result_title_property : option string
}.

(** [d.items()]: each key once, in the order of its first binding, with the
    value of its last. *)
Definition dict_items (members : list (string * json)) : list (string * json) :=
  (fun k => (k, default JNull (dict_get k members))) <$> Paging.dict_keys members.

(** Lines 100-103: the name of the first property whose ["type"] is
    ["title"], if there is one; a property that is not an object has no
    [get]. *)
Fixpoint find_title (items : list (string * json)) : Paging.uncaught + option string :=
  match items with
  | [] => inr None
  | (prop_name, prop_info) :: rest =>
      match prop_info with
      | JObj fields =>
          match dict_get "type" fields with
          | Some (JStr type) =>
              if String.eqb type "title" then inr (Some prop_name)
              else find_title rest
          | _ => find_title rest
          end
      | _ => inl (Paging.Exn AttributeError)
      end
  end.

Section Requests.
Variable conn : Type.
(** [GET /databases/{id}] and [PATCH /databases/{id}] with its
    ["properties"]. *)
Variable get_database : conn -> conn * http_result.
Variable patch_database : conn -> gmap string json -> conn * http_result.

(** [check_schema]: the result, the client with its [_title_property] as
    the call leaves it, and the connection; or an escaping exception. *)
Definition check_schema (self : NotionClient) (c : conn)
    : Paging.uncaught + (SchemaResult * NotionClient * conn) :=
  match get_database c with
  | (c1, HTTPError) => inr (mk_result false (Some required) None, self, c1)
  | (c1, NonJson status_code) =>
      if negb (status_code =? 200)%Z
      then inr (mk_result false (Some required) None, self, c1)
      else inl (Paging.Exn JSONDecodeError)
  | (c1, Response status_code data) =>
      if negb (status_code =? 200)%Z
      then inr (mk_result false (Some required) None, self, c1)
      else
        match Paging.py_get data "properties" (JObj []) with
        | inl e => inl e
        | inr (JObj properties) =>
            match find_title (dict_items properties) with
            | inl e => inl e
            | inr found =>
                let self' :=
                  match found with
                  | Some prop_name => mk_client (database_id self) prop_name
                  | None => self
                  end in
                let existing : gset string := list_to_set (properties.*1) in
                let missing := required ∖ existing in
                if bool_decide (missing = ∅)
                then inr (mk_result true None (Some (title_property self')),
                          self', c1)
                else inr (mk_result false (Some missing)
                            (Some (title_property self')), self', c1)
            end
        | inr _ => inl (Paging.Exn AttributeError)   (* no [items] *)
        end
  end.

(** [{prop: REQUIRED_PROPERTIES[prop] for prop in missing}] *)
Definition properties_to_add (missing : gset string) : gmap string json :=
  list_to_map (List.filter (fun kv => bool_decide (kv.1 ∈ missing))
                 REQUIRED_PROPERTIES).

(** [setup_schema]: the boolean returned, the client, the connection and
    the properties sent by [PATCH], if a [PATCH] was sent. *)
Definition setup_schema (self : NotionClient) (c : conn)
    : Paging.uncaught + (bool * NotionClient * conn * option (gmap string json)) :=
  match check_schema self c with
  | inl e => inl e
  | inr (schema_result, self', c1) =>
      if valid schema_result then inr (true, self', c1, None)
      else
        match missing_properties schema_result with
        | None => inr (true, self', c1, None)
        | Some missing =>
            if bool_decide (missing = ∅) then inr (true, self', c1, None)
            else
              let properties_to_add := properties_to_add missing in
              match patch_database c1 properties_to_add with
              | (c2, HTTPError) => inr (false, self', c2, Some properties_to_add)
              | (c2, Response status_code _) | (c2, NonJson status_code) =>
                  inr ((status_code =? 200)%Z, self', c2, Some properties_to_add)
              end
        end
  end.

End Requests.

(** A database as the service describes it: its properties, each with a
    type. *)
Definition database_body (columns : list (string * string)) : json :=
  JObj [("object", JStr "database");
        ("properties",
         JObj ((fun column =>
                  (column.1, JObj [("id", JStr "x"); ("type", JStr column.2)]))
               <$> columns))].

(** One column as it appears under ["properties"]. *)
Definition column_entry (column : string * string) : string * json :=
  (column.1, JObj [("id", JStr "x"); ("type", JStr column.2)]).

(** The name of the first column of type ["title"]. *)
Fixpoint first_title (columns : list (string * string)) : option string :=
  match columns with
  | [] => None
  | (name, type) :: rest =>
      if String.eqb type "title" then Some name else first_title rest
  end.

(** A service whose database has the given columns and which answers a
    [PATCH] with the given status. *)
Definition serve_database (columns : list (string * string)) (c : unit)
    : unit * http_result :=
  (c, Response 200 (database_body columns)).

Definition serve_patch (status_code : Z) (c : unit) (properties : gmap string json)
    : unit * http_result :=
  (c, Response status_code JNull).

End Schema.

(** ** Two databases *)
Module Databases.

(** All four required names, the title column being called ["Text"]. *)
Definition title_is_text : list (string * string) :=
  [("Text", "title"); ("Timestamp", "date"); ("Duration", "number");
   ("VoiceInk ID", "rich_text")].

(** A fresh database: a title and a date. *)
Definition fresh : list (string * string) :=
  [("Name", "title"); ("Timestamp", "date")].

End Databases.

(** ** main.py: the database id typed in [interactive_setup], lines 44-52 *)
Module Setup.

(** [s.replace("-", "")] *)
Fixpoint remove_dashes (s : string) : string :=
  match s with
  | EmptyString => EmptyString
  | String c rest =>
      if Ascii.eqb c "-" then remove_dashes rest
      else String c (remove_dashes rest)
  end.

(** [needle in hay] *)
Fixpoint contains (needle hay : string) : bool :=
  String.prefix needle hay ||
  match hay with
  | EmptyString => false
  | String _ rest => contains needle rest
  end.

(** [s.split("/")] *)
Fixpoint split_slash (s : string) : list string :=
  match s with
  | EmptyString => [EmptyString]
  | String c rest =>
      if Ascii.eqb c "/" then EmptyString :: split_slash rest
      else match split_slash rest with
           | [] => [String c EmptyString]
           | part :: parts => String c part :: parts
           end
  end.

Section Clean.
(** [str.isalnum], which knows the letters and digits of Unicode. *)
Variable isalnum : string -> bool.

(** The loop of lines 49-52: the value given to [database_id], if any. *)
Fixpoint first_id_part (parts : list string) : option string :=
  match parts with
  | [] => None
  | part :: rest =>
      if Nat.leb 32 (String.length part)
         && isalnum (remove_dashes (Py.str_take 32 part))
      then Some (remove_dashes (Py.str_take 32 part))
      else first_id_part rest
  end.

(** Lines 45-52. *)
Definition clean_database_id (database_id : string) : string :=
  let database_id := remove_dashes database_id in
  if contains "notion.so" database_id
  then match first_id_part (split_slash database_id) with
       | Some part => part
       | None => database_id
       end
  else database_id.

End Clean.

(** Strings of hexadecimal digits. *)
Definition is_hex_digit (c : ascii) : bool :=
  let n := Ascii.nat_of_ascii c in
  (Nat.leb 48 n && Nat.leb n 57) || (Nat.leb 65 n && Nat.leb n 70)
  || (Nat.leb 97 n && Nat.leb n 102).

Fixpoint all_hex (s : string) : bool :=
  match s with
  | EmptyString => true
  | String c rest => is_hex_digit c && all_hex rest
  end.

(** Strings without a given character. *)
Fixpoint free_of (c : ascii) (s : string) : bool :=
  match s with
  | EmptyString => true
  | String c' rest => negb (Ascii.eqb c' c) && free_of c rest
  end.

(** An [isalnum] for strings of ASCII letters and digits. *)
Definition is_alnum_char (c : ascii) : bool :=
  let n := Ascii.nat_of_ascii c in
  (Nat.leb 48 n && Nat.leb n 57) || (Nat.leb 65 n && Nat.leb n 90)
  || (Nat.leb 97 n && Nat.leb n 122).

Fixpoint all_alnum (s : string) : bool :=
  match s with
  | EmptyString => true
  | String c rest => is_alnum_char c && all_alnum rest
  end.

Definition ascii_isalnum (s : string) : bool :=
  Py.str_truthy s && all_alnum s.

End Setup.

(** ** main.py: [reset_command] and [list_command] *)
Module Commands.

(** [reset_command], lines 318-326: the state file after the command,
    [confirmed] being the answer to the question. *)
Definition reset_command (confirmed : bool) (file : option state_file)
    : option state_file :=
  if confirmed then None else file.




Section List.
Context {P : Platform}.


End List.

End Commands.

(** ** voiceink_reader.py: [find_voiceink_database], lines 22-63 *)
Module Finder.







End Finder.

(** * Properties *)

(** ** Strings *)

Module PyFacts.
Import Py.

Lemma str_take_length (n : nat) (s : string) :
  String.length (str_take n s) = Nat.min n (String.length s).
Proof.
  revert s; induction n as [|n IH]; intros [|c s]; simpl; auto.
Qed.

Lemma str_drop_length (n : nat) (s : string) :
  String.length (str_drop n s) = String.length s - n.
Proof.
  revert s; induction n as [|n IH]; intros [|c s]; simpl; auto.
Qed.

Lemma str_take_drop (n : nat) (s : string) :
  str_take n s +:+ str_drop n s = s.
Proof.
  revert s; induction n as [|n IH]; intros [|c s]; simpl; auto.
  change (String c (str_take n s +:+ str_drop n s) = String c s).
  f_equal. apply IH.
Qed.

Lemma str_truthy_length (s : string) :
  str_truthy s = negb (String.length s =? 0)%nat.
Proof. now destruct s. Qed.

Lemma str_truthy_false (s : string) : str_truthy s = false -> s = EmptyString.
Proof. now destruct s. Qed.

(** A number below [10^k] is written with at most [k] digits. *)
Lemma digits_loop_length (fuel k : nat) (n : N) (acc : string) :
  (n < 10 ^ N.of_nat (S k))%N ->
  String.length (digits_loop fuel n acc) <= S k + String.length acc.
Proof.
  revert k n acc; induction fuel as [|fuel IH]; intros k n acc Hn; simpl.
  - lia.
  - destruct (N.eqb_spec (n / 10) 0) as [Hz|Hnz]; simpl.
    + lia.
    + destruct k as [|k].
      * exfalso. apply Hnz. apply N.div_small. simpl in Hn. lia.
      * assert (Hq : (n / 10 < 10 ^ N.of_nat (S k))%N).
        { apply N.Div0.div_lt_upper_bound.
          replace (N.of_nat (S (S k))) with (N.succ (N.of_nat (S k))) in Hn by lia.
          rewrite N.pow_succ_r' in Hn. exact Hn. }
        specialize (IH k (n / 10)%N
                      (String (digit_char (n mod 10)) acc) Hq).
        simpl in IH. lia.
Qed.

Lemma str_of_Z_length (z : Z) :
  (- 2 ^ 63 <= z < 2 ^ 63)%Z -> String.length (str_of_Z z) <= 20.
Proof.
  intros Hz. destruct z as [|p|p]; simpl.
  - lia.
  - unfold str_of_N.
    pose proof (digits_loop_length (S (N.to_nat (N.log2 (N.pos p)))) 18
                  (N.pos p) EmptyString) as H.
    simpl String.length in H. etransitivity; [apply H|lia].
    change (10 ^ N.of_nat 19)%N with 10000000000000000000%N. lia.
  - unfold str_of_N.
    pose proof (digits_loop_length (S (N.to_nat (N.log2 (N.pos p)))) 18
                  (N.pos p) EmptyString) as H.
    simpl String.length in H.
    enough (String.length
              (digits_loop (S (N.to_nat (N.log2 (N.pos p)))) (N.pos p) "") <= 19)
      by lia.
    etransitivity; [apply H|lia].
    change (10 ^ N.of_nat 19)%N with 10000000000000000000%N. lia.
Qed.

(** *** [str] of an integer *)

Lemma digit_value_char (d : N) : (d < 10)%N -> digit_value (digit_char d) = Some d.
Proof.
  intros Hd. unfold digit_value, digit_char.
  rewrite Ascii.N_ascii_embedding by lia.
  destruct (N.leb_spec 48 (48 + d)) as [_|H]; [|lia].
  destruct (N.leb_spec (48 + d) 57) as [_|H]; [|lia].
  cbn [andb]. f_equal. lia.
Qed.

Lemma digit_char_nonzero (d : N) : (0 < d < 10)%N -> digit_char d <> "0"%char.
Proof.
  intros Hd E. apply (f_equal digit_value) in E.
  rewrite digit_value_char in E by lia. cbv in E. injection E as E. lia.
Qed.

Lemma digit_char_not_minus (d : N) : (d < 10)%N -> digit_char d <> "-"%char.
Proof.
  intros Hd E. apply (f_equal digit_value) in E.
  rewrite digit_value_char in E by lia. discriminate E.
Qed.

Lemma str_app_assoc (s t u : string) : (s +:+ t) +:+ u = s +:+ (t +:+ u).
Proof.
  induction s as [|c s IH]; [reflexivity|].
  change (String c ((s +:+ t) +:+ u) = String c (s +:+ (t +:+ u))).
  now rewrite IH.
Qed.

(** The digits are put in front of what is there. *)
Lemma digits_loop_acc (fuel : nat) (n : N) (acc : string) :
  digits_loop fuel n acc = digits_loop fuel n EmptyString +:+ acc.
Proof.
  revert n acc; induction fuel as [|fuel IH]; intros n acc; [reflexivity|].
  cbn [digits_loop].
  destruct (n / 10 =? 0)%N; [reflexivity|].
  rewrite (IH _ (String _ acc)), (IH _ (String _ EmptyString)).
  now rewrite str_app_assoc.
Qed.

Lemma decimal_from_app (acc : N) (s t : string) :
  decimal_from acc (s +:+ t)
  = match decimal_from acc s with
    | Some b => decimal_from b t
    | None => None
    end.
Proof.
  revert acc; induction s as [|c s IH]; intros acc; [reflexivity|].
  change (String c s +:+ t) with (String c (s +:+ t)).
  cbn [decimal_from]. destruct (digit_value c); [apply IH|reflexivity].
Qed.

(** With fuel for its binary digits, a number is written in full. *)
Lemma digits_loop_decimal (fuel : nat) (n : N) :
  (n < 2 ^ N.of_nat fuel)%N -> fuel <> 0 ->
  decimal_from 0 (digits_loop fuel n EmptyString) = Some n.
Proof.
  revert n; induction fuel as [|fuel IH]; intros n Hn Hfuel; [done|].
  cbn [digits_loop].
  assert (Hd : (n mod 10 < 10)%N) by (apply N.mod_lt; lia).
  destruct (N.eqb_spec (n / 10) 0) as [Hz|Hnz].
  - cbn [decimal_from]. rewrite (digit_value_char _ Hd). cbn [decimal_from].
    f_equal. pose proof (N.div_mod n 10). lia.
  - rewrite digits_loop_acc, decimal_from_app.
    assert (Hq : (n / 10 < 2 ^ N.of_nat fuel)%N).
    { apply N.Div0.div_lt_upper_bound.
      replace (N.of_nat (S fuel)) with (N.succ (N.of_nat fuel)) in Hn by lia.
      rewrite N.pow_succ_r' in Hn.
      clear IH. set (x := (2 ^ N.of_nat fuel)%N) in *. clearbody x. lia. }
    rewrite IH; [|exact Hq|].
    + cbn [decimal_from]. rewrite (digit_value_char _ Hd). cbn [decimal_from].
      f_equal. pose proof (N.div_mod n 10). lia.
    + intros ->. change (2 ^ N.of_nat 0)%N with 1%N in Hq.
      apply N.lt_1_r in Hq. contradiction.
Qed.

(** The first digit written is not a zero. *)
Lemma digits_loop_leading (fuel : nat) (n : N) :
  (0 < n < 2 ^ N.of_nat fuel)%N ->
  exists c rest,
    digits_loop fuel n EmptyString = String c rest /\ c <> "0"%char /\ c <> "-"%char.
Proof.
  revert n; induction fuel as [|fuel IH]; intros n Hn; [cbn in Hn; lia|].
  cbn [digits_loop].
  assert (Hd : (n mod 10 < 10)%N) by (apply N.mod_lt; lia).
  destruct (N.eqb_spec (n / 10) 0) as [Hz|Hnz].
  - eexists _, _. split; [reflexivity|].
    split; [|now apply digit_char_not_minus].
    apply digit_char_nonzero. pose proof (N.div_mod n 10). lia.
  - rewrite digits_loop_acc.
    assert (Hq : (0 < n / 10 < 2 ^ N.of_nat fuel)%N).
    { split; [now apply N.neq_0_lt_0|]. apply N.Div0.div_lt_upper_bound.
      replace (N.of_nat (S fuel)) with (N.succ (N.of_nat fuel)) in Hn by lia.
      rewrite N.pow_succ_r' in Hn.
      clear IH. set (x := (2 ^ N.of_nat fuel)%N) in *. clearbody x. lia. }
    destruct (IH _ Hq) as (c & rest & -> & Hc). now eexists _, _.
Qed.

Lemma str_of_N_fuel (p : positive) :
  (0 < N.pos p < 2 ^ N.of_nat (S (N.to_nat (N.log2 (N.pos p)))))%N.
Proof.
  split; [lia|].
  replace (N.of_nat (S (N.to_nat (N.log2 (N.pos p)))))
    with (N.succ (N.log2 (N.pos p))) by lia.
  apply N.log2_spec. lia.
Qed.

Lemma str_of_N_decimal (p : positive) :
  decimal_from 0 (str_of_N (N.pos p)) = Some (N.pos p).
Proof.
  unfold str_of_N. apply digits_loop_decimal; [apply str_of_N_fuel|done].
Qed.

Lemma str_of_N_leading (p : positive) :
  exists c rest,
    str_of_N (N.pos p) = String c rest /\ c <> "0"%char /\ c <> "-"%char.
Proof. unfold str_of_N. apply digits_loop_leading, str_of_N_fuel. Qed.

(** [str] writes an integer in decimal. *)
Lemma str_of_Z_decimal (z : Z) : decimal (str_of_Z z) = Some z.
Proof.
  destruct z as [|p|p]; [reflexivity| |].
  - cbn [str_of_Z].
    destruct (str_of_N_leading p) as (c & rest & E & _ & Hminus).
    pose proof (str_of_N_decimal p) as Hp. rewrite E in *.
    unfold decimal. destruct (Ascii.eqb_spec c "-") as [|_]; [done|].
    now rewrite Hp.
  - cbn [str_of_Z]. unfold decimal. cbn [Ascii.eqb Bool.eqb].
    destruct (str_of_N_leading p) as (c & rest & E & _).
    rewrite str_of_N_decimal, E. reflexivity.
Qed.

(** Without a zero in front, unless the integer is zero. *)
Lemma str_of_Z_leading (z : Z) (rest : string) :
  z <> 0%Z ->
  str_of_Z z <> String "0" rest /\ str_of_Z z <> String "-" (String "0" rest).
Proof.
  intros Hz. destruct z as [|p|p]; [done| |]; cbn [str_of_Z];
    destruct (str_of_N_leading p) as (c & rest' & -> & Hzero & Hminus).
  - split; intros [= -> _]; done.
  - split; [discriminate|]. intros [= -> _]. done.
Qed.

End PyFacts.

(** ** voiceink_reader.py: identifiers *)

Example str_of_Z_pos : Py.str_of_Z 9223372036854775807 = "9223372036854775807".
Proof. reflexivity. Qed.

Example str_of_Z_neg : Py.str_of_Z (-40) = "-40".
Proof. reflexivity. Qed.

Example record_id_short_hex : record_id (Some "0A1B") 3 = "0A1B".
Proof. reflexivity. Qed.

Lemma record_id_32 (s : string) (pk : Z) :
  String.length s = 32 -> record_id (Some s) pk = format_uuid s.
Proof.
  intros Hlen. unfold record_id.
  destruct s as [|c s]; [discriminate|].
  cbn [Py.str_truthy andb].
  now rewrite Hlen.
Qed.

Lemma format_uuid_dashed (s : string) :
  String.length s = 32 -> dashed_8_4_4_4_12 s (format_uuid s).
Proof.
  intros Hlen.
  exists (Py.slice 0 8 s), (Py.slice 8 12 s), (Py.slice 12 16 s),
         (Py.slice 16 20 s), (Py.str_drop 20 s).
  do 32 (destruct s as [|? s]; [discriminate Hlen|]).
  destruct s; [|discriminate Hlen].
  repeat split; reflexivity.
Qed.

Lemma record_id_fallback (zid : option string) (pk : Z) :
  Py.opt_str_truthy zid = false ->
  (- 2 ^ 63 <= pk < 2 ^ 63)%Z ->
  record_id zid pk = Py.str_of_Z pk.
Proof.
  intros Hzid Hpk. unfold record_id.
  assert (E : match zid with
              | Some hex => if Py.str_truthy hex then hex else Py.str_of_Z pk
              | None => Py.str_of_Z pk
              end = Py.str_of_Z pk).
  { destruct zid as [hex|]; simpl in *; [now rewrite Hzid|reflexivity]. }
  rewrite E. clear E.
  pose proof (PyFacts.str_of_Z_length pk Hpk) as Hlen.
  destruct (Nat.eqb_spec (String.length (Py.str_of_Z pk)) 32) as [E|_].
  - lia.
  - now rewrite andb_false_r.
Qed.

(** C9.  A source identifier of 32 characters (in particular 32 hexadecimal
    digits) becomes the record id in 8-4-4-4-12 dashed form, the identifier
    ["1234567890abcdef1234567890abcdef"] becomes
    ["12345678-90ab-cdef-1234-567890abcdef"], and a row without hex
    identifier (NULL or empty) gets its primary key, a 64-bit integer,
    written in decimal: the id denotes the key, has no zero in front unless
    the key is zero, and is ["0"], ["4711"], ["-905"] for the keys 0, 4711,
    -905, and the nineteen digits of the largest and smallest keys. *)
Theorem record_id_spec :
  (forall (s : string) (pk : Z),
      String.length s = 32 -> dashed_8_4_4_4_12 s (record_id (Some s) pk)) /\
  (forall pk : Z,
      record_id (Some "1234567890abcdef1234567890abcdef") pk
      = "12345678-90ab-cdef-1234-567890abcdef") /\
  (forall (zid : option string) (pk : Z),
      Py.opt_str_truthy zid = false ->
      (- 2 ^ 63 <= pk < 2 ^ 63)%Z ->
      record_id zid pk = Py.str_of_Z pk) /\
  (forall (zid : option string) (pk : Z),
      Py.opt_str_truthy zid = false ->
      (- 2 ^ 63 <= pk < 2 ^ 63)%Z ->
      decimal (record_id zid pk) = Some pk /\
      String.length (record_id zid pk) <= 20 /\
      (pk <> 0%Z ->
       forall rest,
         record_id zid pk <> String "0" rest /\
         record_id zid pk <> String "-" (String "0" rest))) /\
  record_id None 0 = "0" /\
  record_id None 4711 = "4711" /\
  record_id (Some "") (-905) = "-905" /\
  record_id None 9223372036854775807 = "9223372036854775807" /\
  record_id None (-9223372036854775808) = "-9223372036854775808".
Proof.
  split; [|split; [|split; [|split]]].
  - intros s pk Hlen. rewrite (record_id_32 s pk Hlen).
    now apply format_uuid_dashed.
  - reflexivity.
  - apply record_id_fallback.
  - intros zid pk Hzid Hpk. rewrite (record_id_fallback zid pk Hzid Hpk).
    split; [apply PyFacts.str_of_Z_decimal|].
    split; [now apply PyFacts.str_of_Z_length|].
    intros Hnz rest. now apply PyFacts.str_of_Z_leading.
  - repeat split.
Qed.

Lemma record_id_spec_witness :
  dashed_8_4_4_4_12 "0123456789ABCDEF0123456789ABCDEF"
    (record_id (Some "0123456789ABCDEF0123456789ABCDEF") 12) /\
  record_id None 4711 = Py.str_of_Z 4711 /\
  decimal (record_id None 4711) = Some 4711%Z /\
  record_id None 4711 = "4711" /\
  decimal "4711" = Some 4711%Z.
Proof.
  split; [|split; [|split; [|split]]].
  - apply (proj1 record_id_spec "0123456789ABCDEF0123456789ABCDEF" 12%Z).
    reflexivity.
  - apply (proj1 (proj2 (proj2 record_id_spec)) None 4711%Z).
    + reflexivity.
    + lia.
  - apply (proj1 (proj2 (proj2 (proj2 record_id_spec))) None 4711%Z).
    + reflexivity.
    + lia.
  - reflexivity.
  - reflexivity.
Defined.

(** ** notion_client.py: chunks and blocks *)

Section Chunks.
Variable size : nat.
Hypothesis size_pos : 0 < size.

Lemma split_loop_sizes (fuel : nat) (s : string) :
  String.length <$> split_loop size fuel s
  = chunk_sizes size fuel (String.length s).
Proof.
  revert s; induction fuel as [|fuel IH]; intros s; [reflexivity|].
  cbn [split_loop chunk_sizes].
  rewrite PyFacts.str_truthy_length.
  destruct (String.length s =? 0)%nat; [reflexivity|].
  cbn [negb fmap list_fmap]. f_equal.
  - apply PyFacts.str_take_length.
  - rewrite <- PyFacts.str_drop_length. apply IH.
Qed.

Lemma split_loop_bound (fuel : nat) (s : string) :
  Forall (fun chunk => 0 < String.length chunk <= size) (split_loop size fuel s).
Proof.
  revert s; induction fuel as [|fuel IH]; intros s; [constructor|].
  cbn [split_loop].
  destruct s as [|c s]; [constructor|].
  cbn [Py.str_truthy]. constructor; [|apply IH].
  rewrite PyFacts.str_take_length. cbn [String.length]. lia.
Qed.

(** With fuel for every unit of the text the loop runs to its end: the
    chunks make up the whole text. *)
Lemma split_loop_join (fuel : nat) (s : string) :
  String.length s <= fuel -> join (split_loop size fuel s) = s.
Proof.
  revert s; induction fuel as [|fuel IH]; intros s Hfuel.
  - destruct s; [reflexivity|simpl in Hfuel; lia].
  - cbn [split_loop].
    destruct s as [|c s]; [reflexivity|].
    cbn [Py.str_truthy]. unfold join. cbn [foldr]. fold (join
      (split_loop size fuel (Py.str_drop size (String c s)))).
    rewrite IH.
    + apply PyFacts.str_take_drop.
    + rewrite PyFacts.str_drop_length. cbn [String.length] in *. lia.
Qed.

(** More fuel than the length of the text changes nothing. *)
Lemma split_loop_fuel (fuel fuel' : nat) (s : string) :
  String.length s <= fuel -> String.length s <= fuel' ->
  split_loop size fuel s = split_loop size fuel' s.
Proof.
  revert fuel' s; induction fuel as [|fuel IH]; intros fuel' s H H'.
  - destruct s; [|simpl in H; lia]. now destruct fuel'.
  - destruct fuel' as [|fuel'].
    + destruct s; [reflexivity|simpl in H'; lia].
    + cbn [split_loop]. destruct s as [|c s]; [reflexivity|].
      cbn [Py.str_truthy]. f_equal.
      apply IH; rewrite PyFacts.str_drop_length;
        cbn [String.length] in *; lia.
Qed.

End Chunks.

Lemma split_text_join (text : string) : join (split_text text) = text.
Proof.
  unfold split_text. apply split_loop_join; unfold CHUNK_SIZE; lia.
Qed.

Lemma split_text_bound (text : string) :
  Forall (fun chunk => 0 < String.length chunk <= 2000) (split_text text).
Proof. apply (split_loop_bound CHUNK_SIZE). unfold CHUNK_SIZE; lia. Qed.

Lemma split_text_4500 (text : string) :
  String.length text = 4500 ->
  String.length <$> split_text text = [2000; 2000; 500].
Proof.
  intros Hlen. unfold split_text. rewrite split_loop_sizes, Hlen.
  vm_compute. reflexivity.
Qed.

Lemma paragraphs_bound (text : string) :
  Forall (fun b => String.length (block_content b) <= 2000) (paragraphs text).
Proof.
  unfold paragraphs. apply Forall_fmap.
  eapply Forall_impl; [apply split_text_bound|].
  intros chunk H. unfold compose. cbv beta in H. cbn [block_content]. lia.
Qed.

Lemma page_children_bound (text : string) (enhanced_text : option string) :
  Forall (fun b => String.length (block_content b) <= 2000)
         (page_children text enhanced_text).
Proof.
  unfold page_children. apply Forall_app. split; [apply paragraphs_bound|].
  destruct enhanced_text as [enhanced|]; [|constructor].
  destruct (Py.str_truthy enhanced); [|constructor].
  constructor; [|apply paragraphs_bound].
  cbn [block_content String.length]. lia.
Qed.

Section ClientFacts.
Context {P : Platform}.

Lemma full_payload_children self text timestamp duration enhanced_text voiceink_id :
  children (full_payload self text timestamp duration enhanced_text voiceink_id)
  = take 100 (page_children text enhanced_text).
Proof. reflexivity. Qed.

Lemma create_transcription_page_first_post
    self text timestamp duration enhanced_text prompt_name voiceink_id e :
  exists r later,
    (create_transcription_page self text timestamp duration enhanced_text
       prompt_name voiceink_id e).2
    = Post (full_payload self text timestamp duration enhanced_text voiceink_id) r
        :: later.
Proof.
  unfold create_transcription_page, retry_minimal.
  destruct (post_pages e _) as [e1 [status_code body|status_code|]].
  - destruct (status_code =? 200)%Z.
    + eexists _, _. reflexivity.
    + destruct (post_pages e1 _) as [e2 [status_code2 body2|status_code2|]];
        eexists _, _; reflexivity.
  - destruct (status_code =? 200)%Z.
    + eexists _, _. reflexivity.
    + destruct (post_pages e1 _) as [e2 [status_code2 body2|status_code2|]];
        eexists _, _; reflexivity.
  - eexists _, _. reflexivity.
Qed.

(** C8.  The text is cut into consecutive chunks of 1 to 2000 units that
    make up the whole text, a text of 4500 units gives three chunks of 2000,
    2000 and 500 units, the blocks sent are the first 100 of the page (the
    paragraphs of the text first), each of at most 2000 units, and the request
    is sent whatever the length of the text. *)
Theorem chunking_spec :
  (forall text : string,
      join (split_text text) = text /\
      Forall (fun chunk => 0 < String.length chunk <= 2000) (split_text text)) /\
  (forall text : string,
      String.length text = 4500 ->
      String.length <$> split_text text = [2000; 2000; 500]) /\
  (forall self text timestamp duration enhanced_text prompt_name voiceink_id e,
      let payload :=
        full_payload self text timestamp duration enhanced_text voiceink_id in
      children payload = take 100 (page_children text enhanced_text) /\
      take 100 (Paragraph <$> split_text text) `prefix_of` children payload /\
      length (children payload) <= 100 /\
      Forall (fun b => String.length (block_content b) <= 2000) (children payload) /\
      children (minimal_payload self text enhanced_text) = children payload /\
      exists r later,
        (create_transcription_page self text timestamp duration enhanced_text
           prompt_name voiceink_id e).2 = Post payload r :: later).
Proof.
  split; [|split].
  - intros text. split; [apply split_text_join|apply split_text_bound].
  - apply split_text_4500.
  - intros self text timestamp duration enhanced_text prompt_name voiceink_id e payload.
    subst payload. rewrite full_payload_children.
    repeat split.
    + unfold page_children. rewrite take_app. eexists. reflexivity.
    + rewrite length_take. unfold MAX_CHILDREN. lia.
    + apply Forall_take, page_children_bound.
    + apply create_transcription_page_first_post.
Qed.

End ClientFacts.

Lemma chunking_spec_witness :
  String.length <$> split_text (str_repeat "v" 4500) = [2000; 2000; 500].
Proof.
  apply (proj1 (proj2 (@chunking_spec Scripted.platform))).
  vm_compute. reflexivity.
Defined.

(** ** notion_client.py: the retry *)

Section Retry.
Context {P : Platform}.





(** The requests are the only events of an upload. *)
Lemma create_transcription_page_uploads
    self text timestamp duration enhanced_text prompt_name voiceink_id e :
  uploads (create_transcription_page self text timestamp duration enhanced_text
             prompt_name voiceink_id e).2 = [].
Proof.
  unfold create_transcription_page, retry_minimal.
  destruct (post_pages e _) as [e1 [status_code body|status_code|]]; [| |reflexivity];
    (destruct (status_code =? 200)%Z; [reflexivity|]);
    destruct (post_pages e1 _) as [e2 [status_code2 body2|status_code2|]];
    reflexivity.
Qed.

End Retry.

(** ** sync_tracker.py: the state only grows *)

Section Tracker.
Context {P : Platform}.

Lemma mark_synced_subseteq (self : SyncState) (voiceink_id : string) (t : datetime) :
  synced_ids self ⊆ synced_ids (mark_synced self voiceink_id t).
Proof. simpl. set_solver. Qed.

Lemma mark_synced_elem (self : SyncState) (voiceink_id : string) (t : datetime) :
  voiceink_id ∈ synced_ids (mark_synced self voiceink_id t).
Proof. simpl. set_solver. Qed.

Lemma merge_notion_ids_subseteq (self : SyncState) (notion_ids : gset string) :
  synced_ids self ⊆ synced_ids (merge_notion_ids self notion_ids).
Proof. simpl. set_solver. Qed.

Lemma is_synced_true (self : SyncState) (voiceink_id : string) :
  is_synced self voiceink_id = true <-> voiceink_id ∈ synced_ids self.
Proof. unfold is_synced. apply bool_decide_eq_true. Qed.

Lemma unsynced_elem (state : SyncState) (transcriptions : list Transcription)
    (t : Transcription) :
  t ∈ unsynced state transcriptions <->
  t ∈ transcriptions /\ id t ∉ synced_ids state.
Proof.
  unfold unsynced. rewrite !list_elem_of_In, filter_In, negb_true_iff.
  rewrite <- not_true_iff_false, is_synced_true. reflexivity.
Qed.

(** The identifiers read back from what [save_sync_state] writes. *)
Lemma py_set_of_strings (l : list string) :
  py_set (JArr (JStr <$> l)) = SetOf (list_to_set l).
Proof.
  unfold py_set.
  assert (Hh : forallb hashable (JStr <$> l) = true).
  { induction l as [|x l IH]; [reflexivity|]. simpl. exact IH. }
  rewrite Hh.
  rewrite (mapM_fmap_Some as_str JStr l); [reflexivity|]. intros x. reflexivity.
Qed.

Lemma ids_on_disk_saved (state : SyncState) :
  ids_on_disk (Some (save_sync_state state)) = synced_ids state.
Proof.
  unfold ids_on_disk, save_sync_state, state_data.
  change (dict_get "synced_ids" _)
    with (Some (JArr (JStr <$> elements (synced_ids state)))).
  cbn [default from_option Datatypes.id].
  rewrite py_set_of_strings. apply list_to_set_elements_L.
Qed.

(** What [save_sync_state] writes is read back by [load_sync_state]. *)
Lemma load_saved (state : SyncState) :
  (forall t : datetime, fromisoformat (isoformat t) = Some t) ->
  (forall t : datetime, isoformat t <> EmptyString) ->
  load_sync_state (Some (save_sync_state state)) = Returns state.
Proof.
  intros Hinverse Hnonempty.
  destruct state as [ids time flag].
  unfold load_sync_state, save_sync_state, state_data.
  cbn [synced_ids last_sync_time notion_cache_populated].
  change (dict_get "synced_ids" _) with (Some (JArr (JStr <$> elements ids))).
  change (dict_get "notion_cache_populated" _) with (Some (JBool flag)).
  change (dict_get "last_sync_time" _)
    with (Some (match time with Some t => JStr (isoformat t) | None => JNull end)).
  cbn [default from_option Datatypes.id].
  rewrite py_set_of_strings, list_to_set_elements_L.
  destruct time as [t|]; cbn [truthy]; [|reflexivity].
  pose proof (Hnonempty t) as Hne.
  destruct (isoformat t) as [|c s] eqn:E; [done|].
  cbn [Py.str_truthy]. rewrite <- E, Hinverse. reflexivity.
Qed.

End Tracker.

(** ** main.py: one turn of the loop, the loop, the cycle *)

Section Engine.
Context {P : Platform}.
Variable client : NotionClient.

Lemma sync_one_spec (t : Transcription) (w : world) :
  let ok := (sync_one client t w).1 in
  let w' := (sync_one client t w).2 in
  exists sent,
    uploads sent = [] /\
    w_trace w' =
      w_trace w ++ Upload t :: sent
        ++ (if ok then [Save (state_data (w_state w'))] else []) /\
    w_state w' =
      (if ok then mark_synced (w_state w) (id t) (now (w_env w'))
       else w_state w) /\
    w_disk w' =
      (if ok then Some (save_sync_state (w_state w')) else w_disk w).
Proof.
  unfold sync_one.
  pose proof (create_transcription_page_uploads client (text t) (timestamp t)
                (duration t) (enhanced_text t) (prompt_name t) (Some (id t))
                (w_env w)) as Hsent.
  destruct (create_transcription_page _ _ _ _ _ _ _ _) as [[result e] sent].
  simpl in Hsent. exists sent.
  destruct result as [result|exc]; [destruct (opt_truthy result)|]; simpl.
  - repeat split; try done. now rewrite <- app_assoc.
  - repeat split; try done. now rewrite app_nil_r.
  - repeat split; try done. now rewrite app_nil_r.
Qed.




Lemma sync_one_trace (t : Transcription) (w : world) :
  exists evs,
    w_trace (sync_one client t w).2 = w_trace w ++ evs /\ uploads evs = [t].
Proof.
  destruct (sync_one_spec t w) as (sent & Hsent & Htrace & _).
  eexists. split; [exact Htrace|].
  unfold uploads in *. cbn [omap list_omap]. rewrite omap_app, Hsent.
  now destruct (sync_one client t w).1.
Qed.

Lemma sync_one_state (t : Transcription) (w : world) :
  w_state (sync_one client t w).2 =
    (if (sync_one client t w).1
     then mark_synced (w_state w) (id t) (now (w_env (sync_one client t w).2))
     else w_state w).
Proof. destruct (sync_one_spec t w) as (sent & _ & _ & Hstate & _). exact Hstate. Qed.

Lemma sync_one_disk (t : Transcription) (w : world) :
  w_disk (sync_one client t w).2 =
    (if (sync_one client t w).1
     then Some (save_sync_state (w_state (sync_one client t w).2))
     else w_disk w).
Proof. destruct (sync_one_spec t w) as (sent & _ & _ & _ & Hdisk). exact Hdisk. Qed.

(** Once an exception is on its way out, the loop does nothing. *)
Lemma drain_raised (records : list Transcription) (n : nat) (w : world) (exc : exn) :
  w_raised w = Some exc -> drain client records n w = (n, w).
Proof. intros H. destruct records; cbn [drain]; [reflexivity|now rewrite H]. Qed.

Lemma outcomes_raised (records : list Transcription) (w : world) (exc : exn) :
  w_raised w = Some exc -> outcomes client records w = [].
Proof. intros H. destruct records; cbn [outcomes]; [reflexivity|now rewrite H]. Qed.

Lemma succeeded_raised (records : list Transcription) (w : world) (exc : exn) :
  w_raised w = Some exc -> succeeded client records w = [].
Proof. intros H. destruct records; cbn [succeeded]; [reflexivity|now rewrite H]. Qed.

Lemma drain_cons (t : Transcription) (rest : list Transcription) (n : nat) (w : world) :
  w_raised w = None ->
  drain client (t :: rest) n w
  = drain client rest (if (sync_one client t w).1 then S n else n)
      (sync_one client t w).2.
Proof. intros H. cbn [drain]. rewrite H. now destruct (sync_one client t w). Qed.

Lemma outcomes_cons (t : Transcription) (rest : list Transcription) (w : world) :
  w_raised w = None ->
  outcomes client (t :: rest) w
  = (sync_one client t w).1 :: outcomes client rest (sync_one client t w).2.
Proof. intros H. cbn [outcomes]. rewrite H. now destruct (sync_one client t w). Qed.

Lemma succeeded_cons (t : Transcription) (rest : list Transcription) (w : world) :
  w_raised w = None ->
  succeeded client (t :: rest) w
  = (if (sync_one client t w).1 then [id t] else [])
      ++ succeeded client rest (sync_one client t w).2.
Proof.
  intros H. cbn [succeeded]. rewrite H.
  destruct (sync_one client t w) as [[|] w']; reflexivity.
Qed.



(** The loop calls the upload for the records of the turns it takes, in
    order, and for no other. *)
Lemma drain_trace (records : list Transcription) (n : nat) (w : world) :
  exists evs,
    w_trace (drain client records n w).2 = w_trace w ++ evs /\
    uploads evs = take (length (outcomes client records w)) records.
Proof.
  revert n w; induction records as [|t rest IH]; intros n w.
  - exists []. simpl. now rewrite app_nil_r.
  - destruct (w_raised w) as [exc|] eqn:E.
    + rewrite (drain_raised _ _ _ exc E), (outcomes_raised _ _ exc E).
      exists []. simpl. now rewrite app_nil_r.
    + rewrite (drain_cons _ _ _ _ E), (outcomes_cons _ _ _ E).
      destruct (sync_one_trace t w) as (evs1 & Htrace1 & Hup1).
      destruct (IH (if (sync_one client t w).1 then S n else n)
                   (sync_one client t w).2) as (evs2 & Htrace2 & Hup2).
      exists (evs1 ++ evs2). split.
      * rewrite Htrace2, Htrace1. now rewrite app_assoc.
      * unfold uploads in *. rewrite omap_app, Hup1, Hup2. reflexivity.
Qed.


Lemma drain_count (records : list Transcription) (n : nat) (w : world) :
  (drain client records n w).1 = n + length (succeeded client records w).
Proof.
  revert n w; induction records as [|t rest IH]; intros n w.
  - simpl. lia.
  - destruct (w_raised w) as [exc|] eqn:E.
    + rewrite (drain_raised _ _ _ exc E), (succeeded_raised _ _ exc E). simpl. lia.
    + rewrite (drain_cons _ _ _ _ E), (succeeded_cons _ _ _ E), IH, length_app.
      destruct (sync_one client t w).1; simpl; lia.
Qed.

Lemma drain_synced_ids (records : list Transcription) (n : nat) (w : world) :
  synced_ids (w_state (drain client records n w).2)
  = list_to_set (succeeded client records w) ∪ synced_ids (w_state w).
Proof.
  revert n w; induction records as [|t rest IH]; intros n w.
  - simpl. set_solver.
  - destruct (w_raised w) as [exc|] eqn:E.
    + rewrite (drain_raised _ _ _ exc E), (succeeded_raised _ _ exc E).
      simpl. set_solver.
    + rewrite (drain_cons _ _ _ _ E), (succeeded_cons _ _ _ E), IH, sync_one_state.
      destruct (sync_one client t w).1; simpl; set_solver.
Qed.

Lemma drain_flag (records : list Transcription) (n : nat) (w : world) :
  notion_cache_populated (w_state (drain client records n w).2)
  = notion_cache_populated (w_state w).
Proof.
  revert n w; induction records as [|t rest IH]; intros n w; [reflexivity|].
  destruct (w_raised w) as [exc|] eqn:E.
  - now rewrite (drain_raised _ _ _ exc E).
  - rewrite (drain_cons _ _ _ _ E), IH, sync_one_state.
    now destruct (sync_one client t w).1.
Qed.

(** Between two records the file holds the state as it is in memory, as
    soon as one upload has succeeded. *)
Lemma drain_disk (records : list Transcription) (n : nat) (w : world) :
  (succeeded client records w = [] ->
     w_state (drain client records n w).2 = w_state w /\
     w_disk (drain client records n w).2 = w_disk w) /\
  (w_disk w = Some (save_sync_state (w_state w)) \/
   succeeded client records w <> [] ->
     w_disk (drain client records n w).2
     = Some (save_sync_state (w_state (drain client records n w).2))).
Proof.
  revert n w; induction records as [|t rest IH]; intros n w.
  - simpl. split; [done|]. intros [H|H]; [exact H|done].
  - destruct (w_raised w) as [exc|] eqn:E.
    { rewrite (drain_raised _ _ _ exc E), (succeeded_raised _ _ exc E).
      split; [done|]. intros [H|H]; [exact H|done]. }
    rewrite (drain_cons _ _ _ _ E), (succeeded_cons _ _ _ E).
    specialize (IH (if (sync_one client t w).1 then S n else n)
                  (sync_one client t w).2) as [IHnone IHsome].
    pose proof (sync_one_state t w) as Hstate.
    pose proof (sync_one_disk t w) as Hdisk.
    destruct (sync_one client t w).1; simpl.
    + split; [discriminate|]. intros _. apply IHsome. now left.
    + split.
      * intros Hnone. destruct (IHnone Hnone) as [-> ->]. now split.
      * intros [H|H].
        -- apply IHsome. left. now rewrite Hdisk, Hstate.
        -- apply IHsome. now right.
Qed.

Lemma drain_app (done rest : list Transcription) (n : nat) (w : world) :
  drain client (done ++ rest) n w
  = drain client rest (drain client done n w).1 (drain client done n w).2.
Proof.
  revert n w; induction done as [|t done IH]; intros n w; [reflexivity|].
  destruct (w_raised w) as [exc|] eqn:E.
  - rewrite <- app_comm_cons, !(drain_raised _ _ _ exc E). reflexivity.
  - rewrite <- app_comm_cons, !(drain_cons _ _ _ _ E). apply IH.
Qed.

Lemma do_sync_unfold (db : database) (w : world) :
  do_sync client db w
  = match read_transcriptions (w_env w) db with
    | None => (0, w)
    | Some transcriptions => drain client (unsynced (w_state w) transcriptions) 0 w
    end.
Proof.
  unfold do_sync. destruct (read_transcriptions _ _) as [ts|]; [|reflexivity].
  now destruct (unsynced _ _).
Qed.


Lemma do_sync_trace (db : database) (w : world) :
  exists evs,
    w_trace (do_sync client db w).2 = w_trace w ++ evs /\
    uploads evs
    = take (length (outcomes client (attempted db w) w)) (attempted db w).
Proof.
  rewrite do_sync_unfold. unfold attempted.
  destruct (read_transcriptions _ _) as [ts|].
  - apply drain_trace.
  - exists []. simpl. now rewrite app_nil_r.
Qed.

(** The records a cycle uploads: those of the turns it takes. *)
Lemma do_sync_new_uploads (db : database) (w : world) :
  uploads (new_events (w_trace w) (w_trace (do_sync client db w).2))
  = take (length (outcomes client (attempted db w) w)) (attempted db w).
Proof.
  destruct (do_sync_trace db w) as (evs & -> & Hup).
  unfold new_events. now rewrite drop_app_length.
Qed.


Lemma elem_of_take_1 {A : Type} (x : A) (n : nat) (l : list A) :
  x ∈ take n l -> x ∈ l.
Proof. intros H. rewrite <- (take_drop n l). apply elem_of_app. now left. Qed.

Lemma do_sync_new_uploads_elem (db : database) (w : world) (t : Transcription) :
  t ∈ uploads (new_events (w_trace w) (w_trace (do_sync client db w).2)) ->
  t ∈ attempted db w.
Proof. rewrite do_sync_new_uploads. apply elem_of_take_1. Qed.

Lemma elem_of_uploads (t : Transcription) (evs : list event) :
  Upload t ∈ evs <-> t ∈ uploads evs.
Proof.
  unfold uploads. rewrite list_elem_of_omap. split.
  - intros H. exists (Upload t). now split.
  - intros (ev & Hev & Heq). destruct ev; try discriminate.
    now injection Heq as ->.
Qed.

End Engine.

(** ** The cycle *)

Section Cycle.
Context {P : Platform}.

(** C1.  A cycle never calls the upload operation for a record whose id is
    in [synced_ids] when the cycle starts: every record it uploads has an id
    outside [synced_ids]. *)
Theorem do_sync_skips_synced (client : NotionClient) (db : database) (w : world) :
  let new := new_events (w_trace w) (w_trace (do_sync client db w).2) in
  (forall r : Transcription,
      id r ∈ synced_ids (w_state w) -> Upload r ∉ new) /\
  (forall t : Transcription,
      Upload t ∈ new -> id t ∉ synced_ids (w_state w)).
Proof.
  intros new.
  assert (Hnew : forall t, Upload t ∈ new -> id t ∉ synced_ids (w_state w)).
  { intros t Ht. apply elem_of_uploads in Ht. subst new.
    apply do_sync_new_uploads_elem in Ht. unfold attempted in Ht.
    destruct (read_transcriptions _ _) as [ts|].
    - now apply unsynced_elem in Ht.
    - now apply elem_of_nil in Ht. }
  split; [|exact Hnew].
  intros r Hr Hup. now apply (Hnew r Hup).
Qed.


(** C3.  At the point between the records [done] and the records [rest] of
    the loop, the state file holds the id of every record of [done] whose
    upload succeeded, and is the image of the state in memory; in a turn
    whose upload succeeds the id is added and the whole state written before
    the turn ends, the write being the last event of the turn. *)
Theorem drain_persists_each_success (client : NotionClient)
    (done rest : list Transcription) (n : nat) (w : world) :
  let between := drain client done n w in
  drain client (done ++ rest) n w = drain client rest between.1 between.2 /\
  list_to_set (succeeded client done w) ⊆ ids_on_disk (w_disk between.2) /\
  (succeeded client done w <> [] ->
     w_disk between.2 = Some (save_sync_state (w_state between.2))) /\
  (forall (t : Transcription) (w0 : world),
      (sync_one client t w0).1 = true ->
      let w1 := (sync_one client t w0).2 in
      id t ∈ synced_ids (w_state w1) /\
      w_disk w1 = Some (save_sync_state (w_state w1)) /\
      exists sent,
        uploads sent = [] /\
        w_trace w1
        = w_trace w0 ++ Upload t :: sent ++ [Save (state_data (w_state w1))]).
Proof.
  intros between. subst between.
  destruct (drain_disk client done n w) as [Hnone Hsome].
  repeat split.
  - apply drain_app.
  - destruct (succeeded client done w) as [|i l] eqn:E; [set_solver|].
    rewrite Hsome by (right; discriminate).
    rewrite ids_on_disk_saved, drain_synced_ids, E. set_solver.
  - intros Hne. apply Hsome. now right.
  - rewrite sync_one_state, H. apply mark_synced_elem.
  - rewrite sync_one_disk, H. reflexivity.
  - destruct (sync_one_spec client t w0) as (sent & Hsent & Htrace & _).
    rewrite H in Htrace. now exists sent.
Qed.

Lemma bootstrap_unfold (w : world) :
  notion_cache_populated (w_state w) = false ->
  bootstrap w =
    let e := (get_all_synced_ids (w_env w)).1 in
    let notion_ids := (get_all_synced_ids (w_env w)).2 in
    let trace := w_trace w ++ [ListExistingIds] in
    if bool_decide (notion_ids = ∅)
    then {| w_env := e; w_state := w_state w; w_disk := w_disk w;
            w_trace := trace; w_raised := w_raised w |}
    else save {| w_env := e;
                 w_state := merge_notion_ids (w_state w) notion_ids;
                 w_disk := w_disk w;
                 w_trace := trace;
                 w_raised := w_raised w |}.
Proof.
  intros Hflag. unfold bootstrap. rewrite Hflag.
  now destruct (get_all_synced_ids (w_env w)).
Qed.

(** C4.  When the flag is off at the start, the existing ids are asked
    for; a non-empty answer is united with [synced_ids], the flag is set and
    the state is written at once, also when the database holds no record; an
    empty answer leaves the state and the file as they are, flag off.  What
    is written is the document [written]: the ids of the union, the time of
    the last sync as it was, and the flag on; the ids in the file are those
    of the union, and a later [load_sync_state] returns the merged state
    ([fromisoformat] reading back what [isoformat] prints). *)
Theorem bootstrap_spec (client : NotionClient) (w : world) :
  notion_cache_populated (w_state w) = false ->
  let notion_ids := (get_all_synced_ids (w_env w)).2 in
  let w' := bootstrap w in
  let written :=
    JObj [ ("synced_ids",
              JArr (JStr <$> elements (synced_ids (w_state w) ∪ notion_ids)));
           ("last_sync_time",
              match last_sync_time (w_state w) with
              | Some t => JStr (isoformat t)
              | None => JNull
              end);
           ("notion_cache_populated", JBool true) ] in
  (exists later, w_trace w' = w_trace w ++ ListExistingIds :: later) /\
  (notion_ids <> ∅ ->
     synced_ids (w_state w') = synced_ids (w_state w) ∪ notion_ids /\
     notion_cache_populated (w_state w') = true /\
     last_sync_time (w_state w') = last_sync_time (w_state w) /\
     w_disk w' = Some (save_sync_state (w_state w')) /\
     w_trace w' = w_trace w ++ [ListExistingIds; Save (state_data (w_state w'))] /\
     sync_once client (Rows []) w = (0, w') /\
     w_disk w' = Some (Document written) /\
     w_trace w' = w_trace w ++ [ListExistingIds; Save written] /\
     ids_on_disk (w_disk w') = synced_ids (w_state w) ∪ notion_ids /\
     ((forall t : datetime, fromisoformat (isoformat t) = Some t) ->
      (forall t : datetime, isoformat t <> EmptyString) ->
      load_sync_state (w_disk w')
      = Returns {| synced_ids := synced_ids (w_state w) ∪ notion_ids;
                   last_sync_time := last_sync_time (w_state w);
                   notion_cache_populated := true |})) /\
  (notion_ids = ∅ ->
     w_state w' = w_state w /\
     w_disk w' = w_disk w /\
     notion_cache_populated (w_state w') = false).
Proof.
  intros Hflag notion_ids w' written. subst w' notion_ids written.
  rewrite (bootstrap_unfold w Hflag). cbv zeta.
  destruct (bool_decide_reflect ((get_all_synced_ids (w_env w)).2 = ∅)) as [He|Hne].
  - split; [now eexists|]. split; [contradiction|]. intros _. simpl. now repeat split.
  - split; [simpl; rewrite <- app_assoc; now eexists|].
    split; [|contradiction]. intros _.
    cbn [save w_env w_state w_disk w_trace w_raised].
    split; [reflexivity|]. split; [reflexivity|]. split; [reflexivity|].
    split; [reflexivity|]. split; [now rewrite <- app_assoc|].
    split.
    { unfold sync_once. rewrite (bootstrap_unfold w Hflag). cbv zeta.
      rewrite bool_decide_eq_false_2 by exact Hne. reflexivity. }
    split; [reflexivity|]. split; [now rewrite <- app_assoc|].
    split; [now rewrite ids_on_disk_saved|].
    intros Hinverse Hnonempty. now rewrite (load_saved _ Hinverse Hnonempty).
Qed.

Lemma do_sync_subseteq (client : NotionClient) (db : database) (w : world) :
  synced_ids (w_state w) ⊆ synced_ids (w_state (do_sync client db w).2).
Proof.
  rewrite do_sync_unfold. destruct (read_transcriptions _ _) as [ts|]; [|done].
  rewrite drain_synced_ids. set_solver.
Qed.

Lemma bootstrap_subseteq (w : world) :
  synced_ids (w_state w) ⊆ synced_ids (w_state (bootstrap w)).
Proof.
  unfold bootstrap. destruct (notion_cache_populated (w_state w)); [done|].
  destruct (get_all_synced_ids (w_env w)) as [e notion_ids].
  destruct (bool_decide (notion_ids = ∅)); simpl; set_solver.
Qed.

Lemma cycles_subseteq (client : NotionClient) (dbs : list database) (w : world) :
  synced_ids (w_state w) ⊆ synced_ids (w_state (cycles client dbs w)).
Proof.
  revert w; induction dbs as [|db later IH]; intros w; [done|].
  cbn [cycles]. etransitivity; [apply (do_sync_subseteq client db)|apply IH].
Qed.

(** C7.  [synced_ids] only grows: under [mark_synced], under
    [merge_notion_ids], over a cycle, over the bootstrap, and over a whole
    run of either mode, the ids before are among the ids after. *)
Theorem synced_ids_only_grows :
  (forall (self : SyncState) (voiceink_id : string) (t : datetime),
      synced_ids self ⊆ synced_ids (mark_synced self voiceink_id t)) /\
  (forall (self : SyncState) (notion_ids : gset string),
      synced_ids self ⊆ synced_ids (merge_notion_ids self notion_ids)) /\
  (forall (client : NotionClient) (db : database) (w : world),
      synced_ids (w_state w) ⊆ synced_ids (w_state (do_sync client db w).2)) /\
  (forall w : world,
      synced_ids (w_state w) ⊆ synced_ids (w_state (bootstrap w))) /\
  (forall (client : NotionClient) (db : database) (w : world),
      synced_ids (w_state w) ⊆ synced_ids (w_state (sync_once client db w).2)) /\
  (forall (client : NotionClient) (dbs : list database) (w : world),
      synced_ids (w_state w) ⊆ synced_ids (w_state (sync_always client dbs w))).
Proof.
  repeat split.
  - apply mark_synced_subseteq.
  - apply merge_notion_ids_subseteq.
  - apply do_sync_subseteq.
  - apply bootstrap_subseteq.
  - unfold sync_once. etransitivity;
      [apply bootstrap_subseteq|apply do_sync_subseteq].
  - unfold sync_always. etransitivity;
      [apply bootstrap_subseteq|apply cycles_subseteq].
Qed.

End Cycle.

(** ** sync_tracker.py: the state file *)

Section Store.
Context {P : Platform}.

Lemma load_sync_state_missing : load_sync_state None = Returns SyncState_default.
Proof. reflexivity. Qed.

Lemma load_sync_state_unparsable :
  load_sync_state (Some Unparsable) = Returns SyncState_default.
Proof. reflexivity. Qed.

(** A file that is not text: [read_text] raises inside the [try], and the
    [UnicodeDecodeError] is not among the exceptions caught on line 56. *)
Lemma load_sync_state_not_text :
  load_sync_state (Some NotText) = Raises UnicodeDecodeError.
Proof. reflexivity. Qed.

(** An object without the three keys is read as the empty state. *)
Lemma load_sync_state_empty_object :
  load_sync_state (Some (Document (JObj []))) = Returns SyncState_default.
Proof. reflexivity. Qed.

(** C5 fails on the code: a state file that parses as JSON but is not the
    object that [save_sync_state] writes makes [load_sync_state] raise.  A
    document that is an array or [null] has no [get] ([AttributeError]); a
    number under ["synced_ids"] cannot be iterated and a number under
    ["last_sync_time"] is no ISO string ([TypeError]).  None of these is
    among the exceptions caught on line 56. *)
Theorem load_sync_state_uncaught :
  load_sync_state (Some (Document (JArr []))) = Raises AttributeError /\
  load_sync_state (Some (Document JNull)) = Raises AttributeError /\
  load_sync_state (Some (Document (JObj [("synced_ids", JNum 7)])))
    = Raises TypeError /\
  load_sync_state (Some (Document (JObj [("last_sync_time", JNum 7)])))
    = Raises TypeError.
Proof. repeat split. Qed.

(** C10.  Saving a state and loading it gives the state back, [fromisoformat]
    being the inverse of [isoformat] and no ISO text being empty. *)
Theorem save_load_roundtrip (state : SyncState) :
  (forall t : datetime, fromisoformat (isoformat t) = Some t) ->
  (forall t : datetime, isoformat t <> EmptyString) ->
  load_sync_state (Some (save_sync_state state)) = Returns state.
Proof.
  intros Hinverse Hnonempty.
  destruct state as [ids time flag].
  unfold load_sync_state, save_sync_state, state_data.
  cbn [synced_ids last_sync_time notion_cache_populated].
  change (dict_get "synced_ids" _) with (Some (JArr (JStr <$> elements ids))).
  change (dict_get "notion_cache_populated" _) with (Some (JBool flag)).
  change (dict_get "last_sync_time" _)
    with (Some (match time with Some t => JStr (isoformat t) | None => JNull end)).
  cbn [default from_option Datatypes.id].
  rewrite py_set_of_strings, list_to_set_elements_L.
  destruct time as [t|]; cbn [truthy]; [|reflexivity].
  destruct (isoformat t) as [|c s] eqn:E; [now apply Hnonempty in E|].
  cbn [Py.str_truthy]. rewrite <- E, Hinverse. reflexivity.
Qed.

End Store.

(** ** The retry, and the batch after a failure *)

Section RetryClaim.
Context {P : Platform}.


End RetryClaim.

(** ** The properties on the scripted environment *)

Section ScriptedRuns.
Import Scripted.
#[local] Existing Instance Scripted.platform.

Lemma parse_print_time (t : N) : parse_time (print_time t) = Some t.
Proof.
  unfold parse_time, print_time.
  rewrite DecimalString.NilEmpty.usu. simpl.
  now rewrite DecimalN.Unsigned.of_to.
Qed.

Lemma print_time_nonempty (t : N) : print_time t <> EmptyString.
Proof. discriminate. Qed.

Example second_refused_cycle :
  (do_sync client three_rows second_refused).1 = 2 /\
  synced_ids (w_state (do_sync client three_rows second_refused).2)
    = {[ "1"; "3" ]} /\
  ids_on_disk (w_disk (do_sync client three_rows second_refused).2)
    = {[ "1"; "3" ]} /\
  length (posts (w_trace (do_sync client three_rows second_refused).2)) = 4.
Proof. repeat split; vm_compute; reflexivity. Qed.

Lemma do_sync_skips_synced_witness :
  (Upload (record first_known 1 "first")
     ∉ new_events (w_trace first_known)
         (w_trace (do_sync client three_rows first_known).2)) /\
  (id (record first_known 2 "second") ∉ synced_ids (w_state first_known)).
Proof.
  split.
  - apply (proj1 (do_sync_skips_synced client three_rows first_known)).
    vm_compute. reflexivity.
  - apply (proj2 (do_sync_skips_synced client three_rows first_known)).
    apply list_elem_of_In. vm_compute. left. reflexivity.
Defined.


Lemma drain_persists_each_success_witness :
  let t1 := record second_refused 1 "first" in
  let t2 := record second_refused 2 "second" in
  let t3 := record second_refused 3 "third" in
  let between := drain client [t1; t2] 0 second_refused in
  w_disk between.2 = Some (save_sync_state (w_state between.2)) /\
  id t1 ∈ synced_ids (w_state (sync_one client t1 second_refused).2).
Proof.
  intros t1 t2 t3 between.
  pose proof (drain_persists_each_success client [t1; t2] [t3] 0 second_refused)
    as (_ & _ & Hfile & Hturn).
  split.
  - apply Hfile. vm_compute. discriminate.
  - apply (Hturn t1 second_refused). vm_compute. reflexivity.
Defined.

Lemma bootstrap_spec_witness :
  let after := bootstrap fresh_install in
  load_sync_state None = Returns (w_state fresh_install) /\
  synced_ids (w_state after) = {[ "A"; "B" ]} /\
  notion_cache_populated (w_state after) = true /\
  w_disk after = Some (save_sync_state (w_state after)) /\
  sync_once client (Rows []) fresh_install = (0, after) /\
  w_disk after
  = Some (Document (JObj [ ("synced_ids", JArr [JStr "A"; JStr "B"]);
                           ("last_sync_time", JNull);
                           ("notion_cache_populated", JBool true) ])) /\
  saves (w_trace after)
  = [ JObj [ ("synced_ids", JArr [JStr "A"; JStr "B"]);
             ("last_sync_time", JNull);
             ("notion_cache_populated", JBool true) ] ] /\
  ids_on_disk (w_disk after) = {[ "A"; "B" ]} /\
  load_sync_state (w_disk after)
  = Returns {| synced_ids := {[ "A"; "B" ]}; last_sync_time := None;
               notion_cache_populated := true |}.
Proof.
  intros after.
  pose proof (bootstrap_spec client fresh_install eq_refl) as (_ & Hmerge & _).
  destruct Hmerge
    as (Hids & Hflag & _ & Hfile & _ & Honce & Hwritten & Htrace & Hdisk & Hload).
  { intros Hempty. vm_compute in Hempty. discriminate Hempty. }
  subst after. split; [reflexivity|].
  split; [rewrite Hids; vm_compute; reflexivity|].
  split; [exact Hflag|]. split; [exact Hfile|]. split; [exact Honce|].
  split; [rewrite Hwritten; vm_compute; reflexivity|].
  split; [rewrite Htrace; vm_compute; reflexivity|].
  split; [rewrite Hdisk; vm_compute; reflexivity|].
  rewrite (Hload parse_print_time print_time_nonempty). vm_compute. reflexivity.
Defined.

Lemma save_load_roundtrip_witness :
  let state := {| synced_ids := {[ "1"; "3" ]}; last_sync_time := Some 1730713320%N;
                  notion_cache_populated := true |} in
  load_sync_state (Some (save_sync_state state)) = Returns state.
Proof.
  intros state.
  apply (save_load_roundtrip state); [exact parse_print_time|exact print_time_nonempty].
Defined.



End ScriptedRuns.

(** * Further properties of the code *)

(** ** main.py: cycles one after the other *)

Section Cycles.
Context {P : Platform}.
Variable client : NotionClient.




Lemma succeeded_sublist (records : list Transcription) (w : world) :
  succeeded client records w `sublist_of` id <$> records.
Proof.
  revert w; induction records as [|t rest IH]; intros w; [reflexivity|].
  destruct (w_raised w) as [exc|] eqn:Hw.
  { rewrite (succeeded_raised _ _ _ exc Hw). apply sublist_nil_l. }
  rewrite (succeeded_cons _ _ _ _ Hw). cbn [fmap list_fmap].
  destruct (sync_one client t w).1; cbn [app].
  - apply sublist_skip, IH.
  - apply sublist_cons, IH.
Qed.

Lemma do_sync_synced_ids (db : database) (w : world) :
  synced_ids (w_state (do_sync client db w).2)
  = list_to_set (succeeded client (attempted db w) w) ∪ synced_ids (w_state w).
Proof.
  rewrite do_sync_unfold. unfold attempted.
  destruct (read_transcriptions _ _) as [ts|].
  - apply drain_synced_ids.
  - simpl. set_solver.
Qed.

Lemma do_sync_count (db : database) (w : world) :
  (do_sync client db w).1 = length (succeeded client (attempted db w) w).
Proof.
  rewrite do_sync_unfold. unfold attempted.
  destruct (read_transcriptions _ _) as [ts|]; [|reflexivity].
  now rewrite drain_count.
Qed.



Lemma size_list_to_set_le (l : list string) :
  size (list_to_set (C:=gset string) l) <= length l.
Proof.
  induction l as [|x l IH]; cbn [list_to_set foldr length].
  - now rewrite size_empty.
  - rewrite size_union_alt, size_singleton.
    pose proof (subseteq_size (list_to_set l ∖ {[x]}) (list_to_set (C:=gset string) l)) as H.
    assert (list_to_set l ∖ {[x]} ⊆ list_to_set (C:=gset string) l) by set_solver.
    specialize (H ltac:(assumption)). lia.
Qed.

(** X3.  The count returned by a cycle bounds the growth of [synced_ids],
    and is exactly the growth when the records uploaded have distinct ids. *)
Theorem do_sync_count_growth (db : database) (w : world) :
  size (synced_ids (w_state (do_sync client db w).2))
    <= size (synced_ids (w_state w)) + (do_sync client db w).1 /\
  (NoDup (id <$> attempted db w) ->
   size (synced_ids (w_state (do_sync client db w).2))
   = size (synced_ids (w_state w)) + (do_sync client db w).1).
Proof.
  rewrite do_sync_synced_ids, do_sync_count.
  set (ok := succeeded client (attempted db w) w).
  assert (Hdisj : list_to_set ok ## synced_ids (w_state w)).
  { intros i Hi Hin. apply elem_of_list_to_set in Hi.
    pose proof (succeeded_sublist (attempted db w) w) as Hsub.
    apply (elem_of_sublist _ _ _ Hi), list_elem_of_fmap in Hsub as (t & -> & Ht).
    unfold attempted in Ht. destruct (read_transcriptions _ _) as [ts|].
    - now apply unsynced_elem in Ht.
    - now apply elem_of_nil in Ht. }
  rewrite (size_union _ _ Hdisj). split.
  - pose proof (size_list_to_set_le ok) as Hle. lia.
  - intros Hnodup.
    rewrite size_list_to_set; [lia|].
    exact (sublist_NoDup _ _ Hnodup (succeeded_sublist (attempted db w) w)).
Qed.

(** X24.  A row whose timestamp [datetime.fromtimestamp] refuses makes
    [read_transcriptions] raise, whatever the other rows are; the cycle
    catches the exception and returns 0: no record is uploaded, not even
    those of the rows that can be read, nothing is written, and the state is
    as it was. *)
Theorem do_sync_timestamp_out_of_range (rows : list Row) (w : world)
    (row : Row) (v : float) :
  row ∈ rows -> ZTIMESTAMP row = Some v -> timestamp_in_range v = false ->
  read_transcriptions (w_env w) (Rows rows) = None /\
  attempted (Rows rows) w = [] /\
  do_sync client (Rows rows) w = (0, w).
Proof.
  intros Hin Hts Hrange.
  assert (Hread : read_transcriptions (w_env w) (Rows rows) = None).
  { cbn [read_transcriptions].
    destruct (forallb row_in_range rows) eqn:E; [|reflexivity].
    rewrite forallb_forall in E. apply list_elem_of_In in Hin.
    specialize (E row Hin). unfold row_in_range in E. rewrite Hts in E.
    congruence. }
  split; [exact Hread|]. split.
  - unfold attempted. now rewrite Hread.
  - rewrite do_sync_unfold. now rewrite Hread.
Qed.

End Cycles.

(** ** main.py: requests, writes and calls of a run *)

Section Traffic.
Context {P : Platform}.
Variable client : NotionClient.

Lemma create_transcription_page_posts
    self text timestamp duration enhanced_text prompt_name voiceink_id e :
  let sent := (create_transcription_page self text timestamp duration
                 enhanced_text prompt_name voiceink_id e).2 in
  Forall (fun ev => is_post ev = true) sent /\ 1 <= length sent <= 2.
Proof.
  unfold create_transcription_page, retry_minimal.
  destruct (post_pages e _) as [e1 [status_code body|status_code|]].
  - destruct (status_code =? 200)%Z.
    + simpl. split; [repeat constructor|lia].
    + destruct (post_pages e1 _) as [e2 [status_code2 body2|status_code2|]]; simpl;
        (split; [repeat constructor|lia]).
  - destruct (status_code =? 200)%Z.
    + simpl. split; [repeat constructor|lia].
    + destruct (post_pages e1 _) as [e2 [status_code2 body2|status_code2|]]; simpl;
        (split; [repeat constructor|lia]).
  - simpl. split; [repeat constructor|lia].
Qed.

Lemma only_posts (sent : list event) :
  Forall (fun ev => is_post ev = true) sent ->
  length (posts sent) = length sent /\ saves sent = [] /\ list_calls sent = 0.
Proof.
  unfold list_calls, posts, saves.
  induction 1 as [|ev sent Hev _ (IH1 & IH2 & IH3)]; [done|].
  destruct ev; try discriminate.
  cbn [omap list_omap length]. now rewrite IH1.
Qed.

Lemma sync_one_events (t : Transcription) (w : world) :
  w_trace (sync_one client t w).2
  = w_trace w ++
    Upload t ::
      (create_transcription_page client (text t) (timestamp t) (duration t)
         (enhanced_text t) (prompt_name t) (Some (id t)) (w_env w)).2
      ++ (if (sync_one client t w).1
          then [Save (state_data (w_state (sync_one client t w).2))] else []).
Proof.
  unfold sync_one.
  destruct (create_transcription_page _ _ _ _ _ _ _ _) as [[result e] sent].
  destruct result as [result|exc]; [destruct (opt_truthy result)|]; simpl.
  - now rewrite <- app_assoc.
  - now rewrite app_nil_r.
  - now rewrite app_nil_r.
Qed.

Lemma posts_app (l k : list event) : posts (l ++ k) = posts l ++ posts k.
Proof. apply omap_app. Qed.

Lemma saves_app (l k : list event) : saves (l ++ k) = saves l ++ saves k.
Proof. apply omap_app. Qed.

Lemma list_calls_app (l k : list event) :
  list_calls (l ++ k) = list_calls l + list_calls k.
Proof. unfold list_calls. now rewrite omap_app, length_app. Qed.

(** What one turn adds to the trace. *)
Lemma sync_one_traffic (t : Transcription) (w : world) :
  exists evs,
    w_trace (sync_one client t w).2 = w_trace w ++ evs /\
    1 <= length (posts evs) <= 2 /\
    length (saves evs) = (if (sync_one client t w).1 then 1 else 0) /\
    list_calls evs = 0.
Proof.
  destruct (create_transcription_page_posts client (text t) (timestamp t)
              (duration t) (enhanced_text t) (prompt_name t) (Some (id t))
              (w_env w)) as [Hsent Hlen].
  destruct (only_posts _ Hsent) as (Hp & Hs & Hc).
  eexists. split; [apply sync_one_events|].
  change (Upload t :: ?l) with ([Upload t] ++ l).
  rewrite !posts_app, !saves_app, !list_calls_app, !length_app, Hp, Hs, Hc.
  destruct (sync_one client t w).1; cbn; repeat split; lia.
Qed.

(** What the loop adds to the trace: one to two requests for each turn it
    takes, one write for each success, no call for the existing ids. *)
Lemma drain_traffic (records : list Transcription) (n : nat) (w : world) :
  exists evs,
    w_trace (drain client records n w).2 = w_trace w ++ evs /\
    length (outcomes client records w) <= length (posts evs)
      <= 2 * length (outcomes client records w) /\
    length (saves evs) = length (succeeded client records w) /\
    list_calls evs = 0.
Proof.
  revert n w; induction records as [|t rest IH]; intros n w.
  - exists []. simpl. rewrite app_nil_r. unfold list_calls. simpl. repeat split; lia.
  - destruct (w_raised w) as [exc|] eqn:Hw.
    { rewrite (drain_raised _ _ _ _ exc Hw), (outcomes_raised _ _ _ exc Hw),
        (succeeded_raised _ _ _ exc Hw).
      exists []. simpl. rewrite app_nil_r. unfold list_calls. simpl.
      repeat split; lia. }
    rewrite (drain_cons _ _ _ _ _ Hw), (succeeded_cons _ _ _ _ Hw),
      (outcomes_cons _ _ _ _ Hw).
    destruct (IH (if (sync_one client t w).1 then S n else n)
                 (sync_one client t w).2) as (evs & Htrace & Hposts & Hsaves & Hcalls).
    destruct (sync_one_traffic t w) as (evs1 & Htrace1 & Hposts1 & Hsaves1 & Hcalls1).
    exists (evs1 ++ evs). split; [now rewrite Htrace, Htrace1, app_assoc|].
    rewrite posts_app, saves_app, list_calls_app, !length_app, Hsaves, Hsaves1.
    cbn [length]. destruct (sync_one client t w).1; cbn [length]; repeat split; lia.
Qed.

Lemma do_sync_new_traffic (db : database) (w : world) :
  let new := new_events (w_trace w) (w_trace (do_sync client db w).2) in
  let turns := length (outcomes client (attempted db w) w) in
  turns <= length (posts new) <= 2 * turns /\
  length (saves new) = (do_sync client db w).1 /\
  list_calls new = 0.
Proof.
  intros new turns. subst new turns.
  rewrite do_sync_count, do_sync_unfold. unfold attempted.
  destruct (read_transcriptions _ _) as [ts|].
  - destruct (drain_traffic (unsynced (w_state w) ts) 0 w)
      as (evs & -> & Hposts & Hsaves & Hcalls).
    unfold new_events. rewrite drop_app_length. done.
  - unfold new_events. cbn [snd]. rewrite drop_all. unfold list_calls. simpl.
    repeat split; lia.
Qed.


Lemma do_sync_flag (db : database) (w : world) :
  notion_cache_populated (w_state (do_sync client db w).2)
  = notion_cache_populated (w_state w).
Proof.
  rewrite do_sync_unfold. destruct (read_transcriptions _ _) as [ts|]; [|done].
  apply drain_flag.
Qed.

Lemma cycles_calls (dbs : list database) (w : world) :
  exists evs,
    w_trace (cycles client dbs w) = w_trace w ++ evs /\ list_calls evs = 0 /\
    notion_cache_populated (w_state (cycles client dbs w))
    = notion_cache_populated (w_state w).
Proof.
  revert w; induction dbs as [|db later IH]; intros w.
  - exists []. simpl. now rewrite app_nil_r.
  - cbn [cycles].
    destruct (IH (do_sync client db w).2) as (evs & -> & Hcalls & ->).
    destruct (do_sync_trace client db w) as (evs0 & Htrace & _).
    pose proof (do_sync_new_traffic db w) as (_ & _ & Hcalls0). cbv zeta in Hcalls0.
    rewrite Htrace in *. unfold new_events in Hcalls0.
    rewrite drop_app_length in Hcalls0.
    exists (evs0 ++ evs). split; [now rewrite app_assoc|]. split.
    + unfold list_calls in *. rewrite omap_app, length_app. lia.
    + apply do_sync_flag.
Qed.

End Traffic.

(** ** main.py: what the bootstrap does for the rest of the run *)

Section BootstrapRun.
Context {P : Platform}.
Variable client : NotionClient.

Lemma bootstrap_events (w : world) :
  exists evs,
    w_trace (bootstrap w) = w_trace w ++ evs /\
    uploads evs = [] /\
    list_calls evs = (if notion_cache_populated (w_state w) then 0 else 1).
Proof.
  unfold bootstrap. destruct (notion_cache_populated (w_state w)).
  - exists []. now rewrite app_nil_r.
  - destruct (get_all_synced_ids (w_env w)) as [e notion_ids].
    destruct (bool_decide (notion_ids = ∅)); simpl.
    + now eexists.
    + rewrite <- app_assoc. now eexists.
Qed.

Lemma bootstrap_synced_ids (w : world) :
  notion_cache_populated (w_state w) = false ->
  synced_ids (w_state (bootstrap w))
  = synced_ids (w_state w) ∪ (get_all_synced_ids (w_env w)).2.
Proof.
  intros Hflag. rewrite (bootstrap_unfold w Hflag). cbv zeta.
  destruct (bool_decide_reflect ((get_all_synced_ids (w_env w)).2 = ∅)) as [->|_];
    simpl; [set_solver|reflexivity].
Qed.

Lemma bootstrap_flag (w : world) :
  notion_cache_populated (w_state (bootstrap w))
  = notion_cache_populated (w_state w)
    || negb (bool_decide ((get_all_synced_ids (w_env w)).2 = ∅)).
Proof.
  unfold bootstrap. destruct (notion_cache_populated (w_state w)) eqn:E.
  - now rewrite E.
  - destruct (get_all_synced_ids (w_env w)) as [e notion_ids]. simpl.
    now destruct (bool_decide (notion_ids = ∅)).
Qed.

(** X5.  In a run of the continuous mode the existing ids are asked for
    once if the flag is off at the start and never if it is on, however many
    cycles follow; at the end the flag is on exactly when it was on at the
    start or the one answer was not empty. *)
Theorem existing_ids_asked_once (dbs : list database) (w : world) :
  let after := sync_always client dbs w in
  list_calls (new_events (w_trace w) (w_trace after))
  = (if notion_cache_populated (w_state w) then 0 else 1) /\
  notion_cache_populated (w_state after)
  = notion_cache_populated (w_state w)
    || negb (bool_decide ((get_all_synced_ids (w_env w)).2 = ∅)).
Proof.
  intros after. subst after. unfold sync_always.
  destruct (cycles_calls client dbs (bootstrap w)) as (evs & -> & Hcalls & ->).
  destruct (bootstrap_events w) as (evs0 & -> & _ & Hcalls0).
  split; [|apply bootstrap_flag].
  unfold new_events. rewrite <- app_assoc, drop_app_length, list_calls_app. lia.
Qed.

Lemma sync_once_new_uploads (db : database) (w : world) :
  uploads (new_events (w_trace w) (w_trace (sync_once client db w).2))
  = take (length (outcomes client (attempted db (bootstrap w)) (bootstrap w)))
      (attempted db (bootstrap w)).
Proof.
  unfold sync_once.
  destruct (do_sync_trace client db (bootstrap w)) as (evs & -> & Hevs).
  destruct (bootstrap_events w) as (evs0 & -> & Hevs0 & _).
  unfold new_events. rewrite <- app_assoc, drop_app_length.
  unfold uploads in *. now rewrite omap_app, Hevs0, Hevs.
Qed.

(** X6.  When the flag is off, a record whose id is among the ids that the
    destination reports is not uploaded by the run, whatever the local state
    was: the bootstrap comes before the snapshot is compared. *)
Theorem reported_ids_not_uploaded (db : database) (w : world) (t : Transcription) :
  notion_cache_populated (w_state w) = false ->
  Upload t ∈ new_events (w_trace w) (w_trace (sync_once client db w).2) ->
  (id t ∉ (get_all_synced_ids (w_env w)).2) /\ (id t ∉ synced_ids (w_state w)).
Proof.
  intros Hflag Hup.
  apply elem_of_uploads in Hup. rewrite sync_once_new_uploads in Hup.
  apply elem_of_take_1 in Hup.
  unfold attempted in Hup. destruct (read_transcriptions _ _) as [ts|].
  - apply unsynced_elem in Hup as [_ Hnot].
    rewrite (bootstrap_synced_ids w Hflag) in Hnot. set_solver.
  - now apply elem_of_nil in Hup.
Qed.

End BootstrapRun.

Lemma reported_ids_not_uploaded_witness :
  let w := Scenarios.remote_knows_first in
  let t := Scripted.record w 2 "second" in
  (id t ∉ (get_all_synced_ids (w_env w)).2) /\ (id t ∉ synced_ids (w_state w)).
Proof.
  intros w t.
  apply (reported_ids_not_uploaded (P:=Scripted.platform) Scripted.client
           Scripted.three_rows w t).
  - reflexivity.
  - apply elem_of_uploads. rewrite sync_once_new_uploads.
    apply list_elem_of_In. vm_compute. left. reflexivity.
Defined.

(** ** notion_client.py: the title, the chunks, the properties *)

Module PyMore.
Import Py.

Lemma str_append_length (a b : string) :
  String.length (a +:+ b) = String.length a + String.length b.
Proof.
  induction a as [|c a IH]; [reflexivity|].
  change (S (String.length (a +:+ b)) = S (String.length a + String.length b)).
  now rewrite IH.
Qed.

Lemma str_take_all (n : nat) (s : string) :
  String.length s <= n -> str_take n s = s.
Proof.
  revert s; induction n as [|n IH]; intros [|c s] H; simpl in *;
    try reflexivity; try lia.
  f_equal. apply IH. lia.
Qed.

Lemma digits_loop_truthy (fuel : nat) (n : N) (acc : string) :
  str_truthy acc = true -> str_truthy (digits_loop fuel n acc) = true.
Proof.
  revert n acc; induction fuel as [|fuel IH]; intros n acc Hacc; [exact Hacc|].
  cbn [digits_loop]. destruct (n / 10 =? 0)%N; [reflexivity|].
  now apply IH.
Qed.

Lemma str_of_Z_truthy (z : Z) : str_truthy (str_of_Z z) = true.
Proof.
  destruct z as [|p|p]; [reflexivity| |reflexivity].
  unfold str_of_Z, str_of_N. cbn [digits_loop].
  destruct (N.pos p / 10 =? 0)%N; [reflexivity|].
  now apply digits_loop_truthy.
Qed.

End PyMore.

Lemma format_uuid_truthy (s : string) :
  Py.str_truthy s = true -> Py.str_truthy (format_uuid s) = true.
Proof. destruct s; [discriminate|reflexivity]. Qed.

Lemma record_id_truthy (zid : option string) (pk : Z) :
  Py.str_truthy (record_id zid pk) = true.
Proof.
  unfold record_id.
  set (rid := match zid with
              | Some hex => if Py.str_truthy hex then hex else Py.str_of_Z pk
              | None => Py.str_of_Z pk
              end).
  assert (Hrid : Py.str_truthy rid = true).
  { subst rid. destruct zid as [hex|]; [|apply PyMore.str_of_Z_truthy].
    destruct (Py.str_truthy hex) eqn:E; [exact E|apply PyMore.str_of_Z_truthy]. }
  rewrite Hrid. cbn [andb].
  destruct (String.length rid =? 32)%nat; [|exact Hrid].
  now apply format_uuid_truthy.
Qed.

(** X10.  The title is the text itself up to 100 units, and the first 100
    units followed by three dots beyond: never more than 103 units. *)
Theorem page_title_spec (text : string) :
  String.length (page_title text) <= 103 /\
  (String.length text <= 100 -> page_title text = text) /\
  (100 < String.length text ->
     page_title text = Py.str_take 100 text +:+ "..." /\
     String.length (page_title text) = 103).
Proof.
  unfold page_title, TITLE_SIZE.
  destruct (Nat.ltb_spec 100 (String.length text)) as [Hlong|Hshort].
  - rewrite PyMore.str_append_length, PyFacts.str_take_length.
    cbn [String.length]. repeat split; try lia.
  - repeat split; try lia.
Qed.

Lemma page_title_spec_witness :
  page_title "note" = "note" /\
  String.length (page_title (str_repeat "a" 250)) = 103.
Proof.
  split.
  - apply (proj1 (proj2 (page_title_spec "note"))). cbn. lia.
  - apply (proj2 (proj2 (page_title_spec (str_repeat "a" 250)))).
    vm_compute. lia.
Defined.

Section ChunkCount.
Variable size : nat.
Hypothesis size_pos : 0 < size.

Lemma chunk_sizes_length (fuel len : nat) :
  len <= fuel ->
  length (chunk_sizes size fuel len) = (len + size - 1) / size.
Proof.
  revert len; induction fuel as [|fuel IH]; intros len Hfuel.
  - replace len with 0 by lia. cbn [chunk_sizes length].
    symmetry. apply Nat.div_small. lia.
  - cbn [chunk_sizes]. destruct (Nat.eqb_spec len 0) as [->|Hlen].
    + cbn [length]. symmetry. apply Nat.div_small. lia.
    + cbn [length]. rewrite IH by lia.
      destruct (Nat.le_gt_cases len size) as [Hle|Hgt].
      * replace (len - size) with 0 by lia.
        rewrite (Nat.div_small (0 + size - 1)) by lia.
        apply (Nat.div_unique _ _ 1 (len - 1)); lia.
      * replace (len + size - 1) with ((len - size + size - 1) + 1 * size) by lia.
        rewrite Nat.div_add by lia. lia.
Qed.

Lemma split_loop_length (fuel : nat) (s : string) :
  String.length s <= fuel ->
  length (split_loop size fuel s) = (String.length s + size - 1) / size.
Proof.
  intros Hfuel.
  rewrite <- (chunk_sizes_length fuel (String.length s) Hfuel).
  rewrite <- split_loop_sizes. now rewrite length_fmap.
Qed.

End ChunkCount.

(** X11.  The number of chunks of a text is its length divided by 2000,
    rounded up; the empty text has no chunk. *)
Theorem split_text_length (text : string) :
  length (split_text text) = (String.length text + 1999) / 2000.
Proof.
  unfold split_text.
  rewrite (split_loop_length CHUNK_SIZE) by (unfold CHUNK_SIZE; lia).
  unfold CHUNK_SIZE. f_equal. lia.
Qed.

Lemma join_paragraphs (text : string) :
  join (block_content <$> paragraphs text) = text.
Proof.
  unfold paragraphs.
  assert (H : forall l : list string, block_content <$> (Paragraph <$> l) = l).
  { induction l as [|c l IH]; [reflexivity|]. cbn [fmap list_fmap] in *.
    now rewrite IH. }
  rewrite H. apply split_text_join.
Qed.

Section Properties.
Context {P : Platform}.

(** X12.  A text of at most 200000 units, sent without enhanced text,
    arrives whole: the blocks of the request, put together, are the text. *)
Theorem short_text_sent_whole self text timestamp duration voiceink_id :
  String.length text <= 100 * 2000 ->
  join (block_content <$>
          children (full_payload self text timestamp duration None voiceink_id))
  = text.
Proof.
  intros Hlen. rewrite full_payload_children. unfold page_children.
  rewrite app_nil_r, take_ge; [apply join_paragraphs|].
  unfold paragraphs. rewrite length_fmap, split_text_length.
  enough ((String.length text + 1999) / 2000 < 101)
    by (unfold MAX_CHILDREN; lia).
  apply Nat.Div0.div_lt_upper_bound. lia.
Qed.

End Properties.

Lemma str_repeat_length (c : ascii) (n : nat) :
  String.length (str_repeat c n) = n.
Proof. induction n as [|n IH]; [reflexivity|]. cbn. now rewrite IH. Qed.

Lemma short_text_sent_whole_witness :
  join (block_content <$>
          children (full_payload (P:=Scripted.platform) Scripted.client
                      (str_repeat "b" 4100) 0%N 90%Z None (Some "7")))
  = str_repeat "b" 4100.
Proof.
  apply (short_text_sent_whole (P:=Scripted.platform)).
  rewrite str_repeat_length. lia.
Defined.

Section PropertySet.
Context {P : Platform}.

(** X7.  When the title column has none of the four fixed names, the full
    request carries the title, the first 2000 units of the text (the whole
    text when it is no longer), the ISO timestamp, the rounded duration and,
    for a non-empty id, the id; and these are all its properties. *)
Theorem full_properties_spec self text timestamp duration voiceink_id :
  title_property self ∉ ["Text"; "Timestamp"; "Duration"; "VoiceInk ID"] ->
  let props := full_properties self text timestamp duration voiceink_id in
  props !! title_property self = Some (Title (page_title text)) /\
  props !! "Text" = Some (RichText (Py.str_take 2000 text)) /\
  (String.length text <= 2000 -> props !! "Text" = Some (RichText text)) /\
  props !! "Timestamp" = Some (Date (isoformat timestamp)) /\
  props !! "Duration" = Some (Number (round2 duration)) /\
  props !! "VoiceInk ID"
    = (if Py.opt_str_truthy voiceink_id then RichText <$> voiceink_id else None) /\
  dom props
    = {[ title_property self; "Text"; "Timestamp"; "Duration" ]}
      ∪ (if Py.opt_str_truthy voiceink_id then {[ "VoiceInk ID" ]} else ∅).
Proof.
  intros Hname props. subst props.
  assert (H1 : title_property self <> "Text") by set_solver.
  assert (H2 : title_property self <> "Timestamp") by set_solver.
  assert (H3 : title_property self <> "Duration") by set_solver.
  assert (H4 : title_property self <> "VoiceInk ID") by set_solver.
  clear Hname. unfold full_properties.
  change (Py.str_take 2000 text) with (Py.str_take CHUNK_SIZE text).
  assert (Htext : String.length text <= 2000 -> Py.str_take CHUNK_SIZE text = text)
    by apply PyMore.str_take_all.
  revert Htext. generalize (Py.str_take CHUNK_SIZE text). intros first Htext.
  set (base := <["Duration" := Number (round2 duration)]>
                 (<["Timestamp" := Date (isoformat timestamp)]>
                    (<["Text" := RichText first]>
                       ({[ title_property self := Title (page_title text) ]}
                          : gmap string (prop_value float))))).
  assert (Hbase :
    base !! title_property self = Some (Title (page_title text)) /\
    base !! "Text" = Some (RichText first) /\
    base !! "Timestamp" = Some (Date (isoformat timestamp)) /\
    base !! "Duration" = Some (Number (round2 duration)) /\
    base !! "VoiceInk ID" = None /\
    dom base = {[ title_property self; "Text"; "Timestamp"; "Duration" ]}).
  { subst base. repeat split.
    - rewrite !lookup_insert_ne by congruence. apply lookup_singleton_eq.
    - rewrite !lookup_insert_ne by discriminate. apply lookup_insert_eq.
    - rewrite lookup_insert_ne by discriminate. apply lookup_insert_eq.
    - apply lookup_insert_eq.
    - rewrite !lookup_insert_ne by discriminate.
      apply lookup_singleton_ne. congruence.
    - rewrite !dom_insert_L, dom_singleton_L. set_solver. }
  destruct Hbase as (B1 & B2 & B3 & B4 & B5 & B6).
  assert (Hplain :
    base !! title_property self = Some (Title (page_title text)) /\
    base !! "Text" = Some (RichText first) /\
    (String.length text <= 2000 -> base !! "Text" = Some (RichText text)) /\
    base !! "Timestamp" = Some (Date (isoformat timestamp)) /\
    base !! "Duration" = Some (Number (round2 duration)) /\
    base !! "VoiceInk ID" = None /\
    dom base = {[ title_property self; "Text"; "Timestamp"; "Duration" ]} ∪ ∅).
  { repeat split; try assumption.
    - intros Hlen. now rewrite B2, (Htext Hlen).
    - rewrite B6. set_solver. }
  destruct voiceink_id as [i|]; cbn [Py.opt_str_truthy fmap option_fmap option_map];
    [|exact Hplain].
  destruct (Py.str_truthy i); [|exact Hplain].
  repeat split.
  - now rewrite lookup_insert_ne by congruence.
  - now rewrite lookup_insert_ne by discriminate.
  - intros Hlen. rewrite lookup_insert_ne by discriminate.
    now rewrite B2, (Htext Hlen).
  - now rewrite lookup_insert_ne by discriminate.
  - now rewrite lookup_insert_ne by discriminate.
  - apply lookup_insert_eq.
  - rewrite dom_insert_L, B6. set_solver.
Qed.

(** X8.  When the title column is called ["Text"], ["Timestamp"] or
    ["Duration"], the property of that name replaces the title: the full
    request carries no title at all. *)
Theorem title_replaced self text timestamp duration voiceink_id :
  title_property self ∈ ["Text"; "Timestamp"; "Duration"] ->
  forall (name content : string),
    full_properties self text timestamp duration voiceink_id !! name
    <> Some (Title content).
Proof.
  intros Hname name content. unfold full_properties.
  assert (Hbase :
    (<["Duration" := Number (round2 duration)]>
       (<["Timestamp" := Date (isoformat timestamp)]>
          (<["Text" := RichText (Py.str_take CHUNK_SIZE text)]>
             ({[ title_property self := Title (page_title text) ]}
                : gmap string (prop_value float))))) !! name
    <> Some (Title content)).
  { rewrite !lookup_insert. repeat case_decide; try discriminate.
    rewrite lookup_singleton. case_decide; [|discriminate].
    subst name. set_solver. }
  destruct voiceink_id as [i|]; [|exact Hbase].
  destruct (Py.str_truthy i); [|exact Hbase].
  rewrite lookup_insert. case_decide; [discriminate|exact Hbase].
Qed.

(** X9.  Every record read from the database has a non-empty id, and the
    full request for it carries that id under ["VoiceInk ID"], whatever the
    title column is called; the retry carries no ["VoiceInk ID"] unless that
    is the name of the title column. *)
Theorem requests_tagged self text timestamp duration enhanced_text
    (e : env) (row : Row) :
  let voiceink_id := id (read_row e row) in
  Py.str_truthy voiceink_id = true /\
  properties (full_payload self text timestamp duration enhanced_text
                (Some voiceink_id)) !! "VoiceInk ID"
  = Some (RichText voiceink_id) /\
  (title_property self <> "VoiceInk ID" ->
   properties (minimal_payload self text enhanced_text) !! "VoiceInk ID" = None).
Proof.
  intros voiceink_id.
  assert (Hid : Py.str_truthy voiceink_id = true) by apply record_id_truthy.
  split; [exact Hid|]. split.
  - cbn [full_payload properties]. unfold full_properties. rewrite Hid.
    apply lookup_insert_eq.
  - intros Hname. cbn [minimal_payload properties]. unfold minimal_properties.
    now apply lookup_singleton_ne.
Qed.

End PropertySet.

Lemma full_properties_spec_witness :
  full_properties (P:=Scripted.platform) Scripted.client "hello" 0%N 150%Z (Some "7")
    !! "VoiceInk ID" = Some (RichText "7").
Proof.
  apply (full_properties_spec (P:=Scripted.platform) Scripted.client "hello"
           0%N 150%Z (Some "7")).
  cbn. rewrite !not_elem_of_cons. repeat split; try discriminate.
  apply not_elem_of_nil.
Defined.

Lemma title_replaced_witness :
  full_properties (P:=Scripted.platform) Clients.title_named_text "hello" 0%N
    150%Z (Some "7") !! "Text" <> Some (Title "hello").
Proof.
  apply (title_replaced (P:=Scripted.platform) Clients.title_named_text).
  cbn. left.
Defined.

Lemma requests_tagged_witness :
  properties (minimal_payload (P:=Scripted.platform) Scripted.client "hello" None)
    !! "VoiceInk ID" = None.
Proof.
  apply (requests_tagged (P:=Scripted.platform) Scripted.client "hello" 0%N 150%Z
           None Scripted.offline (Scripted.row 1 "hello")).
  discriminate.
Defined.

(** ** voiceink_reader.py: identifiers do not collide *)

Lemma undash_format_uuid (s : string) :
  String.length s = 32 -> undash_uuid (format_uuid s) = s.
Proof.
  intros Hlen.
  do 32 (destruct s as [|? s]; [discriminate Hlen|]).
  destruct s; [|discriminate Hlen].
  reflexivity.
Qed.

Lemma format_uuid_length (s : string) :
  String.length s = 32 -> String.length (format_uuid s) = 36.
Proof.
  intros Hlen.
  do 32 (destruct s as [|? s]; [discriminate Hlen|]).
  destruct s; [|discriminate Hlen].
  reflexivity.
Qed.

(** X13.  Two rows with different 32-character identifiers get different
    record ids, and the id of such a row (36 units) is never the id of a row
    that falls back to its 64-bit primary key. *)
Theorem record_id_no_collision (s s' : string) (pk pk' : Z) :
  String.length s = 32 ->
  (String.length s' = 32 ->
   record_id (Some s) pk = record_id (Some s') pk' -> s = s') /\
  String.length (record_id (Some s) pk) = 36 /\
  (forall zid : option string,
      Py.opt_str_truthy zid = false ->
      (- 2 ^ 63 <= pk' < 2 ^ 63)%Z ->
      record_id (Some s) pk <> record_id zid pk').
Proof.
  intros Hlen. rewrite (record_id_32 s pk Hlen). repeat split.
  - intros Hlen' Heq. rewrite (record_id_32 s' pk' Hlen') in Heq.
    apply (f_equal undash_uuid) in Heq.
    now rewrite !undash_format_uuid in Heq.
  - now apply format_uuid_length.
  - intros zid Hzid Hpk Heq.
    rewrite (record_id_fallback zid pk' Hzid Hpk) in Heq.
    apply (f_equal String.length) in Heq.
    rewrite (format_uuid_length s Hlen) in Heq.
    pose proof (PyFacts.str_of_Z_length pk' Hpk). lia.
Qed.

Lemma record_id_no_collision_witness :
  record_id (Some "0123456789ABCDEF0123456789ABCDEF") 1
  <> record_id None 2.
Proof.
  apply (proj2 (proj2 (record_id_no_collision "0123456789ABCDEF0123456789ABCDEF"
                         "0123456789ABCDEF0123456789ABCDEF" 1%Z 2%Z eq_refl))
           None).
  - reflexivity.
  - lia.
Defined.

(** ** main.py and sync_tracker.py: stopping and starting again *)

Section Restart.
Context {P : Platform}.
Variable client : NotionClient.

Lemma do_sync_disk (db : database) (w : world) :
  (succeeded client (attempted db w) w = [] ->
     w_state (do_sync client db w).2 = w_state w /\
     w_disk (do_sync client db w).2 = w_disk w) /\
  (succeeded client (attempted db w) w <> [] ->
     w_disk (do_sync client db w).2
     = Some (save_sync_state (w_state (do_sync client db w).2))).
Proof.
  rewrite do_sync_unfold. unfold attempted.
  destruct (read_transcriptions _ _) as [ts|].
  - destruct (drain_disk client (unsynced (w_state w) ts) 0 w) as [Hnone Hsome].
    split; [exact Hnone|]. intros Hne. apply Hsome. now right.
  - split; [done|]. intros Hne. now contradiction Hne.
Qed.

(** X14.  After a cycle in which an upload succeeded, a process that starts
    again loads exactly the state the cycle ended with; a cycle without
    success writes nothing and leaves state and file as they were.  The ISO
    format is taken to be read back by [fromisoformat] and never empty. *)
Theorem restart_resumes (db : database) (w : world) :
  (forall t : datetime, fromisoformat (isoformat t) = Some t) ->
  (forall t : datetime, isoformat t <> EmptyString) ->
  let after := (do_sync client db w).2 in
  ((do_sync client db w).1 <> 0 ->
     load_sync_state (w_disk after) = Returns (w_state after)) /\
  ((do_sync client db w).1 = 0 ->
     w_state after = w_state w /\ w_disk after = w_disk w /\
     saves (new_events (w_trace w) (w_trace after)) = []).
Proof.
  intros Hinverse Hnonempty after. subst after.
  destruct (do_sync_disk db w) as [Hnone Hsome].
  pose proof (do_sync_new_traffic client db w) as (_ & Hsaves & _).
  cbv zeta in Hsaves. rewrite do_sync_count in *. split.
  - intros Hcount. rewrite Hsome; [now apply load_saved|].
    intros E. now rewrite E in Hcount.
  - intros Hcount. apply length_zero_iff_nil in Hcount.
    destruct (Hnone Hcount) as [-> ->]. repeat split.
    rewrite Hcount in Hsaves. now apply length_zero_iff_nil in Hsaves.
Qed.

End Restart.

Lemma restart_resumes_witness :
  let after := (do_sync (P:=Scripted.platform) Scripted.client Scripted.three_rows
                  Scripted.second_refused).2 in
  load_sync_state (w_disk after) = Returns (w_state after).
Proof.
  intros after.
  refine (proj1 (restart_resumes (P:=Scripted.platform) Scripted.client
                   Scripted.three_rows Scripted.second_refused _ _) _).
  - exact parse_print_time.
  - exact print_time_nonempty.
  - vm_compute. discriminate.
Defined.

(** ** notion_client.py: listing the ids already in the destination *)

Module PagingFacts.
Import Paging.

Lemma page_voiceink_id_tagged (tag : option string) :
  page_voiceink_id (tagged_page tag)
  = inr (match tag with
         | Some i => if Py.str_truthy i then Some (JStr i) else None
         | None => None
         end).
Proof. destruct tag as [i|]; reflexivity. Qed.

Lemma page_ids_cons (tag : option string) (tags : list (option string)) :
  page_ids (tag :: tags)
  = match tag with
    | Some i => if Py.str_truthy i then {[ i ]} ∪ page_ids tags else page_ids tags
    | None => page_ids tags
    end.
Proof.
  unfold page_ids. cbn [omap list_omap].
  destruct tag as [i|]; [|reflexivity]. now destruct (Py.str_truthy i).
Qed.

Lemma add_pages_tagged (tags : list (option string)) (acc : id_set) :
  add_pages (tagged_page <$> tags) acc
  = inr (mk_ids (members acc ∪ page_ids tags) (only_strings acc)).
Proof.
  revert acc; induction tags as [|tag tags IH]; intros [ids flag].
  - cbn. f_equal. f_equal. unfold page_ids. cbn. set_solver.
  - cbn [fmap list_fmap add_pages]. rewrite page_voiceink_id_tagged, page_ids_cons.
    destruct tag as [i|]; [|apply IH].
    destruct (Py.str_truthy i); [|apply IH].
    cbn [add_id]. rewrite IH. cbn [members only_strings].
    f_equal. f_equal. set_solver.
Qed.

Section LoopFacts.
Variable conn : Type.
Variable post_query : conn -> query_payload -> conn * http_result.

(** Fuel beyond what the loop needs changes nothing. *)
Lemma query_loop_fuel (fuel extra : nat) c cursor acc sent r :
  query_loop conn post_query fuel c cursor acc sent = Some r ->
  query_loop conn post_query (fuel + extra) c cursor acc sent = Some r.
Proof.
  revert c cursor acc sent; induction fuel as [|fuel IH];
    intros c cursor acc sent; [discriminate|].
  cbn [query_loop Nat.add].
  destruct (post_query c _) as [c1 [status_code data|status_code|]]; [| |done].
  2: { now destruct (negb (status_code =? 200)%Z). }
  destruct (negb (status_code =? 200)%Z); [done|].
  destruct (py_get data "results" (JArr [])) as [e|results]; [done|].
  destruct (py_iter results) as [e|pages]; [done|].
  destruct (add_pages pages acc) as [e|acc']; [done|].
  destruct data; try done.
  destruct (truthy _ && truthy _); [apply IH|done].
Qed.

(** X17.  An answer with status 200 whose body is not an object, or whose
    ["results"] is [null], a number or a boolean, makes the call raise: the
    exception is not among those the loop catches. *)
Theorem wrong_shape_raises (fuel : nat) c cursor acc sent c1 (body : json) :
  let payload :=
    mk_query 100 (match cursor with
                  | Some v => if truthy v then Some v else None
                  | None => None
                  end) in
  post_query c payload = (c1, Response 200 body) ->
  ((forall fields, body <> JObj fields) ->
   query_loop conn post_query (S fuel) c cursor acc sent
   = Some (Raised (Exn AttributeError), c1, sent ++ [payload])) /\
  (forall fields results,
      body = JObj fields ->
      dict_get "results" fields = Some results ->
      results = JNull \/ (exists b, results = JBool b) \/ (exists n, results = JNum n) ->
      query_loop conn post_query (S fuel) c cursor acc sent
      = Some (Raised (Exn TypeError), c1, sent ++ [payload])).
Proof.
  intros payload Hpost. subst payload. split.
  - intros Hbody. cbn [query_loop]. rewrite Hpost. cbn [negb Z.eqb Pos.eqb].
    destruct body as [| | | | |fields]; try reflexivity.
    now contradiction (Hbody fields).
  - intros fields results -> Hresults Hkind. cbn [query_loop]. rewrite Hpost.
    cbn [negb Z.eqb Pos.eqb py_get]. rewrite Hresults.
    destruct Hkind as [->|[[b ->]|[n ->]]]; reflexivity.
Qed.

(** An answer with status 200 whose body is not JSON makes the call raise
    as well: [response.json()] is inside the [try], but its
    [json.JSONDecodeError] is not an [httpx.HTTPError]. *)
Lemma non_json_raises (fuel : nat) c cursor acc sent c1 :
  let payload :=
    mk_query 100 (match cursor with
                  | Some v => if truthy v then Some v else None
                  | None => None
                  end) in
  post_query c payload = (c1, NonJson 200) ->
  query_loop conn post_query (S fuel) c cursor acc sent
  = Some (Raised (Exn JSONDecodeError), c1, sent ++ [payload]).
Proof. intros payload Hpost. subst payload. cbn [query_loop]. now rewrite Hpost. Qed.

End LoopFacts.

Lemma scripted_loop_more (chunks : list (list (option string) * string))
    (tail : list http_result) (fuel : nat) (cursor : option json)
    (acc : id_set) (sent : list query_payload) :
  Forall (fun chunk => Py.str_truthy chunk.2 = true) chunks ->
  match cursor with Some v => truthy v = true | None => True end ->
  query_loop _ scripted_query (length chunks + fuel)
    ((more_answer <$> chunks) ++ tail) cursor acc sent
  = query_loop _ scripted_query fuel tail (final_cursor cursor chunks)
      (mk_ids (members acc ∪ all_ids chunks) (only_strings acc))
      (sent ++ requests_from cursor chunks).
Proof.
  revert cursor acc sent; induction chunks as [|[tags next] chunks IH];
    intros cursor [ids flag] sent Hcursors Hcursor.
  - cbn. rewrite app_nil_r. f_equal. f_equal. unfold all_ids. cbn. set_solver.
  - apply Forall_cons in Hcursors as [Hnext Hcursors]. cbn [fst snd] in Hnext.
    cbn [length Nat.add fmap list_fmap app query_loop scripted_query more_answer
         fst snd].
    cbn [negb Z.eqb Pos.eqb query_answer py_get].
    change (dict_get "results" _) with (Some (JArr (tagged_page <$> tags))).
    cbn [default from_option Datatypes.id py_iter].
    rewrite add_pages_tagged.
    change (dict_get "has_more" _) with (Some (JBool true)).
    change (dict_get "next_cursor" _) with (Some (JStr next)).
    cbn [default from_option Datatypes.id truthy andb]. rewrite Hnext.
    rewrite IH; [|exact Hcursors|exact Hnext].
    cbn [members only_strings final_cursor foldl requests_from snd].
    assert (Hc : match cursor with
                 | Some v => if truthy v then Some v else None
                 | None => None
                 end = cursor).
    { destruct cursor as [v|]; [now rewrite Hcursor|reflexivity]. }
    rewrite Hc, <- app_assoc. f_equal.
    f_equal. unfold all_ids. cbn [fmap list_fmap union_list fst]. set_solver.
Qed.

Lemma final_cursor_truthy (chunks : list (list (option string) * string))
    (cursor : option json) :
  Forall (fun chunk => Py.str_truthy chunk.2 = true) chunks ->
  match cursor with Some v => truthy v = true | None => True end ->
  match final_cursor cursor chunks with
  | Some v => if truthy v then Some v else None
  | None => None
  end = final_cursor cursor chunks.
Proof.
  revert cursor; induction chunks as [|[tags next] chunks IH]; intros cursor Hall Hc.
  - cbn. destruct cursor as [v|]; [now rewrite Hc|reflexivity].
  - apply Forall_cons in Hall as [Hnext Hall]. cbn [final_cursor foldl snd].
    apply (IH (Some (JStr next)) Hall Hnext).
Qed.

(** X15.  When the service answers page after page, each answer but the
    last announcing more and giving a cursor, the call returns the non-empty
    ids of all pages of all answers; pages with an empty id are passed over.
    It makes one request for each answer, the first without cursor and each
    later one with the cursor of the answer before. *)
Theorem listing_complete (chunks : list (list (option string) * string))
    (last_tags : list (option string)) (has_more : bool) (next : json)
    (rest : list http_result) (extra : nat) :
  Forall (fun chunk => Py.str_truthy chunk.2 = true) chunks ->
  has_more && truthy next = false ->
  get_all_synced_ids _ scripted_query (S (length chunks) + extra)
    ((more_answer <$> chunks)
       ++ Response 200 (query_answer (tagged_page <$> last_tags) has_more next)
       :: rest)
  = Some (Listed (mk_ids (all_ids chunks ∪ page_ids last_tags) true),
          rest,
          requests_from None chunks ++ [mk_query 100 (final_cursor None chunks)]).
Proof.
  intros Hcursors Hlast. unfold get_all_synced_ids.
  replace (S (length chunks) + extra) with (length chunks + S extra) by lia.
  rewrite scripted_loop_more; [|exact Hcursors|exact I].
  cbn [query_loop scripted_query].
  rewrite (final_cursor_truthy chunks None Hcursors I).
  cbn [negb Z.eqb Pos.eqb query_answer py_get].
  change (dict_get "results" _) with (Some (JArr (tagged_page <$> last_tags))).
  cbn [default from_option Datatypes.id py_iter].
  rewrite add_pages_tagged.
  change (dict_get "has_more" _) with (Some (JBool has_more)).
  change (dict_get "next_cursor" _) with (Some next).
  cbn [default from_option Datatypes.id truthy members only_strings app].
  rewrite Hlast. now rewrite (left_id_L ∅ (∪)).
Qed.

(** X16.  When a request fails, by a transport error or a status other
    than 200, the call returns the ids gathered from the answers before it,
    as a value: a failure of the very first request gives the empty set, as
    an empty destination does. *)
Theorem listing_truncated (chunks : list (list (option string) * string))
    (failure : http_result) (rest : list http_result) (extra : nat) :
  Forall (fun chunk => Py.str_truthy chunk.2 = true) chunks ->
  accepted failure = false ->
  get_all_synced_ids _ scripted_query (S (length chunks) + extra)
    ((more_answer <$> chunks) ++ failure :: rest)
  = Some (Listed (mk_ids (all_ids chunks) true), rest,
          requests_from None chunks ++ [mk_query 100 (final_cursor None chunks)])
  /\
  get_all_synced_ids _ scripted_query (S (length chunks) + extra)
    (more_answer <$> chunks)
  = Some (Listed (mk_ids (all_ids chunks) true), [],
          requests_from None chunks ++ [mk_query 100 (final_cursor None chunks)]).
Proof.
  intros Hcursors Hfailure. unfold get_all_synced_ids.
  replace (S (length chunks) + extra) with (length chunks + S extra) by lia.
  split.
  - rewrite scripted_loop_more; [|exact Hcursors|exact I].
    cbn [query_loop scripted_query].
    rewrite (final_cursor_truthy chunks None Hcursors I).
    cbn [members only_strings].
    destruct failure as [status_code body|status_code|]; cbn [accepted] in Hfailure.
    + rewrite Hfailure. cbn [negb]. now rewrite (left_id_L ∅ (∪)).
    + rewrite Hfailure. cbn [negb]. now rewrite (left_id_L ∅ (∪)).
    + now rewrite (left_id_L ∅ (∪)).
  - rewrite <- (app_nil_r (more_answer <$> chunks)).
    rewrite scripted_loop_more; [|exact Hcursors|exact I].
    cbn [query_loop scripted_query].
    rewrite (final_cursor_truthy chunks None Hcursors I).
    cbn [members only_strings]. now rewrite (left_id_L ∅ (∪)).
Qed.

End PagingFacts.

Lemma listing_complete_witness :
  Paging.get_all_synced_ids _ Paging.scripted_query 2
    [Paging.more_answer ([Some "a"; None], "c1");
     Response 200 (Paging.query_answer (Paging.tagged_page <$> [Some "b"; Some ""])
                     false JNull)]
  = Some (Paging.Listed
            (Paging.mk_ids (Paging.all_ids [([Some "a"; None], "c1")]
                              ∪ Paging.page_ids [Some "b"; Some ""]) true),
          [],
          [Paging.mk_query 100 None; Paging.mk_query 100 (Some (JStr "c1"))]).
Proof.
  apply (PagingFacts.listing_complete [([Some "a"; None], "c1")]
           [Some "b"; Some ""] false JNull [] 0).
  - repeat constructor.
  - reflexivity.
Defined.

Lemma listing_truncated_witness :
  Paging.get_all_synced_ids _ Paging.scripted_query 1 [Response 503 JNull]
  = Some (Paging.Listed (Paging.mk_ids (Paging.all_ids []) true), [],
          [Paging.mk_query 100 None]).
Proof.
  apply (PagingFacts.listing_truncated [] (Response 503 JNull) [] 0).
  - constructor.
  - reflexivity.
Defined.

Lemma wrong_shape_raises_witness :
  Paging.get_all_synced_ids _ Paging.scripted_query 1 [Response 200 (JArr [])]
  = Some (Paging.Raised (Paging.Exn AttributeError), [],
          [Paging.mk_query 100 None]) /\
  Paging.get_all_synced_ids _ Paging.scripted_query 1
    [Response 200 (JObj [("results", JNum 7)])]
  = Some (Paging.Raised (Paging.Exn TypeError), [],
          [Paging.mk_query 100 None]).
Proof.
  split.
  - apply (PagingFacts.wrong_shape_raises _ Paging.scripted_query 0
             [Response 200 (JArr [])] None (Paging.mk_ids ∅ true) [] []
             (JArr []) eq_refl).
    discriminate.
  - apply (proj2 (PagingFacts.wrong_shape_raises _ Paging.scripted_query 0
                    [Response 200 (JObj [("results", JNum 7)])] None
                    (Paging.mk_ids ∅ true) [] []
                    (JObj [("results", JNum 7)]) eq_refl)
             [("results", JNum 7)] (JNum 7) eq_refl eq_refl).
    right. right. now exists 7%Z.
Defined.

(** ** The properties of successive cycles on the scripted environment *)



Lemma do_sync_timestamp_out_of_range_witness :
  do_sync (P:=Scripted.platform) Scripted.client Scenarios.second_out_of_range
    Scenarios.all_accepted
  = (0, Scenarios.all_accepted).
Proof.
  apply (do_sync_timestamp_out_of_range (P:=Scripted.platform) Scripted.client
           [Scripted.row 1 "first"; Scenarios.out_of_range_row]
           Scenarios.all_accepted Scenarios.out_of_range_row (-5)%Z).
  - right. left.
  - reflexivity.
  - reflexivity.
Defined.


Lemma do_sync_count_growth_witness :
  let w := Scripted.second_refused in
  size (synced_ids (w_state (do_sync (P:=Scripted.platform) Scripted.client
                               Scripted.three_rows w).2))
  = size (synced_ids (w_state w))
    + (do_sync Scripted.client Scripted.three_rows w).1.
Proof.
  intros w.
  apply (proj2 (do_sync_count_growth (P:=Scripted.platform) Scripted.client
                  Scripted.three_rows w)).
  vm_compute. repeat constructor; rewrite list_elem_of_In; cbn;
    intuition discriminate.
Defined.

(** ** notion_client.py: the schema of the destination *)

Module SchemaFacts.
Import Schema.

Lemma dict_get_absent (key : string) (members : list (string * json)) :
  key ∉ members.*1 -> dict_get key members = None.
Proof.
  induction members as [|[k v] rest IH]; intros Hnot; [reflexivity|].
  cbn [dict_get]. cbn [fmap list_fmap fst] in Hnot.
  apply not_elem_of_cons in Hnot as [Hne Hrest]. rewrite (IH Hrest).
  destruct (String.eqb_spec k key) as [->|_]; [done|reflexivity].
Qed.

Lemma dict_get_present (key : string) (v : json) (members : list (string * json)) :
  NoDup (members.*1) -> (key, v) ∈ members -> dict_get key members = Some v.
Proof.
  induction members as [|[k v'] rest IH]; intros Hnodup Hin.
  - now apply elem_of_nil in Hin.
  - cbn [fmap list_fmap fst] in Hnodup. apply NoDup_cons in Hnodup as [Hk Hrest].
    cbn [dict_get]. apply elem_of_cons in Hin as [Heq|Hin].
    + injection Heq as -> ->. rewrite (dict_get_absent _ _ Hk).
      now rewrite String.eqb_refl.
    + now rewrite (IH Hrest Hin).
Qed.

Lemma dict_keys_distinct (members : list (string * json)) :
  NoDup (members.*1) -> Paging.dict_keys members = members.*1.
Proof.
  induction members as [|[k v] rest IH]; intros Hnodup; [reflexivity|].
  cbn [fmap list_fmap fst] in *. apply NoDup_cons in Hnodup as [Hk Hrest].
  cbn [Paging.dict_keys]. rewrite (IH Hrest). f_equal.
  clear IH Hrest. induction (rest.*1) as [|k' l IHl]; [reflexivity|].
  apply not_elem_of_cons in Hk as [Hne Hl]. cbn [List.filter].
  destruct (String.eqb_spec k k') as [->|_]; [done|].
  cbn [negb]. f_equal. now apply IHl.
Qed.

Lemma dict_items_distinct (members : list (string * json)) :
  NoDup (members.*1) -> dict_items members = members.
Proof.
  intros Hnodup. unfold dict_items. rewrite (dict_keys_distinct _ Hnodup).
  assert (H : forall part, part ⊆ members ->
            (fun k => (k, default JNull (dict_get k members))) <$> part.*1 = part).
  { induction part as [|[k v] part IH]; intros Hsub; [reflexivity|].
    cbn [fmap list_fmap fst]. rewrite IH by set_solver.
    rewrite (dict_get_present k v members Hnodup) by set_solver. reflexivity. }
  now apply H.
Qed.

Lemma column_names (columns : list (string * string)) :
  (column_entry <$> columns).*1 = columns.*1.
Proof. induction columns as [|[n t] l IH]; [reflexivity|]. cbn in *. now rewrite IH. Qed.

Lemma find_title_columns (columns : list (string * string)) :
  find_title (column_entry <$> columns) = inr (first_title columns).
Proof.
  induction columns as [|[name type] rest IH]; [reflexivity|].
  cbn [fmap list_fmap find_title first_title column_entry fst snd].
  change (dict_get "type" _) with (Some (JStr type)). cbn beta iota.
  now destruct (String.eqb type "title").
Qed.

Section CheckFacts.
Variable conn : Type.
Variable get_database : conn -> conn * http_result.

(** What [check_schema] comes to on a database with distinct columns. *)
Lemma check_schema_columns (self : NotionClient) (c c1 : conn)
    (columns : list (string * string)) :
  NoDup (columns.*1) ->
  get_database c = (c1, Response 200 (database_body columns)) ->
  let self' := mk_client (database_id self)
                 (default (title_property self) (first_title columns)) in
  let missing : gset string := required ∖ list_to_set (columns.*1) in
  check_schema conn get_database self c
  = inr (if bool_decide (missing = ∅)
         then mk_result true None (Some (title_property self'))
         else mk_result false (Some missing) (Some (title_property self')),
         self', c1).
Proof.
  intros Hnodup Hget self' missing. subst self' missing.
  unfold check_schema. rewrite Hget. cbn [negb Z.eqb Pos.eqb].
  unfold database_body. cbn [Paging.py_get].
  change (dict_get "properties" _)
    with (Some (JObj (column_entry <$> columns))).
  cbn [default from_option Datatypes.id].
  rewrite dict_items_distinct by (now rewrite column_names).
  rewrite find_title_columns, column_names.
  destruct (first_title columns) as [name|];
    cbn [default from_option Datatypes.id title_property];
    [|destruct self as [db title]; cbn [database_id title_property]];
    now destruct (bool_decide _).
Qed.

(** X18.  On a database with distinct columns, [check_schema] finds the
    schema valid exactly when the four required names are among the column
    names, whatever the types of those columns; otherwise it reports the
    required names that no column has.  The title property becomes the first
    column of type title, and stays as it was when there is none. *)
Theorem check_schema_names (self : NotionClient) (c c1 : conn)
    (columns : list (string * string)) :
  NoDup (columns.*1) ->
  get_database c = (c1, Response 200 (database_body columns)) ->
  exists (res : SchemaResult) (self' : NotionClient),
    check_schema conn get_database self c = inr (res, self', c1) /\
    (valid res = true <->
     Forall (fun name => name ∈ columns.*1)
            ["Text"; "Timestamp"; "Duration"; "VoiceInk ID"]) /\
    (valid res = false ->
     exists missing,
       missing_properties res = Some missing /\
       forall name, name ∈ missing <->
                    name ∈ ["Text"; "Timestamp"; "Duration"; "VoiceInk ID"] /\
                    name ∉ columns.*1) /\
    title_property self' = default (title_property self) (first_title columns) /\
    result_title_property res = Some (title_property self') /\
    database_id self' = database_id self.
Proof.
  intros Hnodup Hget.
  rewrite (check_schema_columns self c c1 columns Hnodup Hget). cbv zeta.
  assert (Hreq : forall name, name ∈ required <->
                   name ∈ ["Text"; "Timestamp"; "Duration"; "VoiceInk ID"]).
  { intros name. unfold required. cbn. set_solver. }
  eexists _, _. split; [reflexivity|].
  destruct (bool_decide_reflect (required ∖ list_to_set (columns.*1) = (∅ : gset string)))
    as [Hempty|Hmissing]; cbn [valid missing_properties result_title_property
                               title_property database_id].
  - repeat split; try done.
    intros _. rewrite Forall_forall. intros name Hname.
    apply Hreq in Hname.
    destruct (decide (name ∈ columns.*1)) as [Hin|Hnot]; [exact Hin|].
    assert (Hin : name ∈ required ∖ list_to_set (C:=gset string) (columns.*1)).
    { apply elem_of_difference. split; [exact Hname|].
      now rewrite elem_of_list_to_set. }
    rewrite Hempty in Hin. now apply not_elem_of_empty in Hin.
  - repeat split; try done.
    + intros Hall. exfalso. apply Hmissing. rewrite Forall_forall in Hall.
      apply set_eq. intros name. rewrite elem_of_difference, Hreq, elem_of_list_to_set.
      split; [intros [Hr Hn]; now apply Hall in Hr|set_solver].
    + intros _. eexists. split; [reflexivity|]. intros name.
      now rewrite elem_of_difference, Hreq, elem_of_list_to_set.
Qed.

End CheckFacts.

Section SetupFacts.
Variable conn : Type.
Variable get_database : conn -> conn * http_result.
Variable patch_database : conn -> gmap string json -> conn * http_result.

Lemma filtered_lookup (l : list (string * json)) (X : gset string) (name : string) :
  (list_to_map (List.filter (fun kv => bool_decide (kv.1 ∈ X)) l)
     : gmap string json) !! name
  = if bool_decide (name ∈ X)
    then (list_to_map l : gmap string json) !! name
    else None.
Proof.
  induction l as [|[k v] rest IH]; cbn [List.filter fst].
  - cbn. rewrite lookup_empty. now destruct (bool_decide _).
  - destruct (bool_decide_reflect (k ∈ X)) as [Hk|Hk].
    + rewrite !list_to_map_cons, !lookup_insert.
      destruct (decide (k = name)) as [->|Hname]; [|exact IH].
      now rewrite bool_decide_eq_true_2.
    + rewrite list_to_map_cons, lookup_insert, IH.
      destruct (decide (k = name)) as [->|Hname]; [|reflexivity].
      now rewrite bool_decide_eq_false_2.
Qed.

Lemma properties_to_add_lookup (missing : gset string) (name : string) :
  properties_to_add missing !! name
  = if bool_decide (name ∈ missing)
    then (list_to_map REQUIRED_PROPERTIES : gmap string json) !! name
    else None.
Proof. apply filtered_lookup. Qed.

(** X19.  [setup_schema] only adds: on a database with distinct columns it
    sends no [PATCH] when the four required names are there, and otherwise
    one [PATCH] whose properties are the required names that are missing,
    each with the definition of [REQUIRED_PROPERTIES]; no existing column is
    named in it.  It returns [True] when nothing was missing or the [PATCH]
    was answered with 200. *)
Theorem setup_schema_additive (self : NotionClient) (c c1 c2 : conn)
    (columns : list (string * string)) (r : http_result) :
  NoDup (columns.*1) ->
  get_database c = (c1, Response 200 (database_body columns)) ->
  let missing : gset string := required ∖ list_to_set (columns.*1) in
  let self' := mk_client (database_id self)
                 (default (title_property self) (first_title columns)) in
  patch_database c1 (properties_to_add missing) = (c2, r) ->
  setup_schema conn get_database patch_database self c
  = inr (if bool_decide (missing = ∅) then (true, self', c1, None)
         else (accepted r, self', c2, Some (properties_to_add missing))) /\
  dom (properties_to_add missing) = missing /\
  (forall name, name ∈ columns.*1 -> properties_to_add missing !! name = None) /\
  (forall name v, properties_to_add missing !! name = Some v ->
                  (name, v) ∈ REQUIRED_PROPERTIES).
Proof.
  intros Hnodup Hget missing self' Hpatch. subst self'.
  assert (Hlookup : forall name v,
            properties_to_add missing !! name = Some v ->
            name ∈ missing /\ (name, v) ∈ REQUIRED_PROPERTIES).
  { intros name v. rewrite properties_to_add_lookup.
    destruct (bool_decide_reflect (name ∈ missing)) as [Hin|_]; [|discriminate].
    intros Hv. split; [exact Hin|].
    apply (elem_of_list_to_map_2 (M:=gmap string)), Hv. }
  split; [|split; [|split]].
  - unfold setup_schema.
    rewrite (check_schema_columns conn get_database self c c1 columns Hnodup Hget).
    cbv zeta. fold missing.
    destruct (bool_decide_reflect (missing = ∅)) as [He|Hne];
      cbn [valid missing_properties]; [reflexivity|].
    rewrite bool_decide_eq_false_2 by exact Hne.
    rewrite Hpatch. now destruct r.
  - apply set_eq. intros name. rewrite elem_of_dom. split.
    + intros [v Hv]. now apply Hlookup in Hv.
    + intros Hin. rewrite properties_to_add_lookup, bool_decide_eq_true_2 by exact Hin.
      assert (Hreq : name ∈ required) by (subst missing; set_solver).
      unfold required in Hreq. cbn in Hreq.
      clear -Hreq. set_unfold. destruct Hreq as [->|[->|[->|[->|[]]]]]; now eexists.
  - intros name Hname. destruct (properties_to_add missing !! name) as [v|] eqn:E;
      [|reflexivity].
    apply Hlookup in E as [Hin _]. subst missing. set_solver.
  - intros name v Hv. now apply Hlookup in Hv.
Qed.

(** X20.  When the database cannot be read (a transport error or a status
    other than 200), [check_schema] reports all four required names as
    missing and leaves the title property alone, and [setup_schema] sends a
    [PATCH] with all four. *)
Theorem setup_schema_unreadable (self : NotionClient) (c : conn) :
  accepted (get_database c).2 = false ->
  let c1 := (get_database c).1 in
  check_schema conn get_database self c
  = inr (mk_result false (Some required) None, self, c1) /\
  setup_schema conn get_database patch_database self c
  = inr (accepted (patch_database c1 (properties_to_add required)).2, self,
         (patch_database c1 (properties_to_add required)).1,
         Some (properties_to_add required)) /\
  dom (properties_to_add required)
  = {[ "Text"; "Timestamp"; "Duration"; "VoiceInk ID" ]}.
Proof.
  intros Hget c1. subst c1.
  assert (Hcheck : check_schema conn get_database self c
                   = inr (mk_result false (Some required) None, self,
                          (get_database c).1)).
  { unfold check_schema.
    destruct (get_database c) as [c1 [status_code data|status_code|]];
      cbn [accepted fst snd] in *; [now rewrite Hget|now rewrite Hget|reflexivity]. }
  split; [exact Hcheck|]. split.
  - unfold setup_schema. rewrite Hcheck. cbn [valid missing_properties].
    rewrite bool_decide_eq_false_2.
    + destruct (patch_database _ _) as [c2 [status_code body|status_code|]];
        reflexivity.
    + unfold required. cbn. set_solver.
  - unfold properties_to_add, required. cbn. set_solver.
Qed.

End SetupFacts.

End SchemaFacts.

Lemma check_schema_names_witness :
  exists (res : Schema.SchemaResult) (self' : NotionClient),
    Schema.check_schema unit (Schema.serve_database Databases.title_is_text)
      Scripted.client tt = inr (res, self', tt) /\
    Schema.valid res = true /\
    title_property self' = "Text".
Proof.
  destruct (SchemaFacts.check_schema_names unit
              (Schema.serve_database Databases.title_is_text)
              Scripted.client tt tt Databases.title_is_text)
    as (res & self' & Hcheck & Hvalid & _ & Htitle & _).
  - cbn. repeat constructor; rewrite ?not_elem_of_cons; repeat split;
      try discriminate; apply not_elem_of_nil.
  - reflexivity.
  - exists res, self'. split; [exact Hcheck|]. split; [|exact Htitle].
    apply Hvalid. cbn. repeat constructor.
Defined.

Lemma setup_schema_additive_witness :
  dom (Schema.properties_to_add
         (Schema.required ∖ list_to_set (Databases.fresh.*1)))
  = Schema.required ∖ list_to_set (Databases.fresh.*1).
Proof.
  refine (proj1 (proj2 (SchemaFacts.setup_schema_additive unit
                          (Schema.serve_database Databases.fresh)
                          (Schema.serve_patch 200) Scripted.client tt tt tt
                          Databases.fresh (Response 200 JNull) _ _ _))).
  - cbn. repeat constructor; rewrite ?not_elem_of_cons; repeat split;
      try discriminate; apply not_elem_of_nil.
  - reflexivity.
  - reflexivity.
Defined.

Lemma setup_schema_unreadable_witness :
  Schema.check_schema unit (fun c => (c, Response 404 JNull)) Scripted.client tt
  = inr (Schema.mk_result false (Some Schema.required) None, Scripted.client, tt).
Proof.
  apply (SchemaFacts.setup_schema_unreadable unit (fun c => (c, Response 404 JNull))
           (Schema.serve_patch 200) Scripted.client tt).
  reflexivity.
Defined.

(** ** main.py: the database id typed at setup *)

Module SetupFacts.
Import Setup.

Lemma remove_dashes_free (s : string) : free_of "-" (remove_dashes s) = true.
Proof.
  induction s as [|c s IH]; [reflexivity|]. cbn [remove_dashes].
  destruct (Ascii.eqb c "-") eqn:E; [exact IH|].
  cbn [free_of]. now rewrite E, IH.
Qed.

Lemma remove_dashes_id (s : string) :
  free_of "-" s = true -> remove_dashes s = s.
Proof.
  induction s as [|c s IH]; [reflexivity|]. cbn [free_of remove_dashes].
  intros H. apply andb_true_iff in H as [Hc Hs].
  apply negb_true_iff in Hc. rewrite Hc. f_equal. now apply IH.
Qed.

Lemma remove_dashes_app (a b : string) :
  remove_dashes (a +:+ b) = remove_dashes a +:+ remove_dashes b.
Proof.
  induction a as [|c a IH]; [reflexivity|].
  change (String c a +:+ b) with (String c (a +:+ b)). cbn [remove_dashes].
  rewrite IH. now destruct (Ascii.eqb c "-").
Qed.

Lemma free_of_app (c : ascii) (a b : string) :
  free_of c (a +:+ b) = free_of c a && free_of c b.
Proof.
  induction a as [|c' a IH]; [reflexivity|].
  change (String c' a +:+ b) with (String c' (a +:+ b)). cbn [free_of].
  now rewrite IH, andb_assoc.
Qed.

Lemma free_of_take (c : ascii) (n : nat) (s : string) :
  free_of c s = true -> free_of c (Py.str_take n s) = true.
Proof.
  revert s; induction n as [|n IH]; intros [|c' s] H; try reflexivity.
  cbn [Py.str_take free_of] in *. apply andb_true_iff in H as [Hc Hs].
  now rewrite Hc, IH.
Qed.

Lemma hex_digit_plain (c : ascii) :
  is_hex_digit c = true ->
  Ascii.eqb c "-" = false /\ Ascii.eqb c "/" = false /\ c <> "n"%char.
Proof.
  destruct c as [[|] [|] [|] [|] [|] [|] [|] [|]]; intros H;
    try discriminate H; repeat split; discriminate.
Qed.

Lemma all_hex_free (s : string) :
  all_hex s = true -> free_of "-" s = true /\ free_of "/" s = true.
Proof.
  induction s as [|c s IH]; [done|]. cbn [all_hex free_of]. intros H.
  apply andb_true_iff in H as [Hc Hs].
  destruct (hex_digit_plain c Hc) as (H1 & H2 & _). destruct (IH Hs) as [-> ->].
  now rewrite H1, H2.
Qed.

Lemma all_hex_not_url (s : string) :
  all_hex s = true -> contains "notion.so" s = false.
Proof.
  induction s as [|c s IH]; [reflexivity|]. cbn [all_hex contains]. intros H.
  apply andb_true_iff in H as [Hc Hs]. rewrite (IH Hs), orb_false_r.
  destruct (hex_digit_plain c Hc) as (_ & _ & Hn).
  cbn [String.prefix]. destruct (ascii_dec "n" c) as [E|_]; [|reflexivity].
  now contradiction Hn.
Qed.

Lemma str_take_app_l (n : nat) (a b : string) :
  n <= String.length a -> Py.str_take n (a +:+ b) = Py.str_take n a.
Proof.
  revert a; induction n as [|n IH]; intros [|c a] H; cbn in *;
    try reflexivity; try lia.
  all: try now destruct b.
  change (Py.str_take (S n) (String c (a +:+ b)) = String c (Py.str_take n a)).
  cbn [Py.str_take]. f_equal. apply IH. lia.
Qed.

Lemma str_append_assoc (a b c : string) :
  a +:+ b +:+ c = (a +:+ b) +:+ c.
Proof.
  induction a as [|x a IH]; [reflexivity|].
  change (String x (a +:+ b +:+ c) = String x ((a +:+ b) +:+ c)). now rewrite IH.
Qed.

Lemma split_slash_cons (s : string) :
  exists part parts, split_slash s = part :: parts.
Proof.
  induction s as [|c s (part & parts & IH)]; [now eexists _, _|].
  cbn [split_slash]. rewrite IH. destruct (Ascii.eqb c "/"); now eexists _, _.
Qed.

(** A piece without slash stays in front of the first part of what
    follows. *)
Lemma split_slash_app (a b : string) :
  free_of "/" a = true ->
  split_slash (a +:+ b)
  = (a +:+ hd EmptyString (split_slash b)) :: tl (split_slash b).
Proof.
  induction a as [|c a IH]; intros Ha.
  - change ("" +:+ b) with b.
    destruct (split_slash_cons b) as (part & parts & ->). reflexivity.
  - cbn [free_of] in Ha. apply andb_true_iff in Ha as [Hc Ha].
    apply negb_true_iff in Hc.
    change (String c a +:+ b) with (String c (a +:+ b)).
    cbn [split_slash]. rewrite Hc, (IH Ha). reflexivity.
Qed.

Lemma split_slash_sep (a b : string) :
  free_of "/" a = true ->
  split_slash (a +:+ String "/" b) = a :: split_slash b.
Proof.
  intros Ha. rewrite (split_slash_app a _ Ha). cbn [split_slash Ascii.eqb].
  cbn. f_equal.
  induction a as [|c a IH]; [reflexivity|].
  cbn [free_of] in Ha. apply andb_true_iff in Ha as [_ Ha].
  change (String c a +:+ "") with (String c (a +:+ "")). now rewrite (IH Ha).
Qed.

Section CleanFacts.
Variable isalnum : string -> bool.

(** X21.  The cleaned database id never contains a dash; an id without
    ["notion.so"] in it is returned with its dashes removed, so that 32
    hexadecimal digits typed in dashed 8-4-4-4-12 form come out as the 32
    digits. *)
Theorem clean_database_id_plain (database_id : string) :
  free_of "-" (clean_database_id isalnum database_id) = true /\
  (contains "notion.so" (remove_dashes database_id) = false ->
   clean_database_id isalnum database_id = remove_dashes database_id) /\
  (String.length database_id = 32 -> all_hex database_id = true ->
   clean_database_id isalnum database_id = database_id /\
   clean_database_id isalnum (format_uuid database_id) = database_id).
Proof.
  split; [|split].
  - unfold clean_database_id.
    destruct (contains _ _); [|apply remove_dashes_free].
    induction (split_slash (remove_dashes database_id)) as [|part parts IH];
      cbn [first_id_part]; [apply remove_dashes_free|].
    destruct (Nat.leb 32 (String.length part) && isalnum _);
      [apply remove_dashes_free|exact IH].
  - intros Hplain. unfold clean_database_id. now rewrite Hplain.
  - intros Hlen Hhex. destruct (all_hex_free _ Hhex) as [Hdash _].
    assert (Hundash : remove_dashes (format_uuid database_id) = database_id).
    { rewrite <- (undash_format_uuid database_id Hlen) at 2.
      unfold format_uuid, undash_uuid.
      rewrite !remove_dashes_app. cbn [remove_dashes Ascii.eqb].
      change (remove_dashes "-") with EmptyString. cbn [String.append].
      assert (Hpart : forall a b, free_of "-" (Py.slice a b database_id) = true).
      { intros a b. unfold Py.slice. apply free_of_take.
        clear -Hdash. revert Hdash. generalize database_id.
        induction a as [|a IH]; intros [|c s] H; cbn [Py.str_drop]; try exact H.
        cbn [free_of] in H. apply andb_true_iff in H as [_ H]. now apply IH. }
      assert (Hdrop : forall a, free_of "-" (Py.str_drop a database_id) = true).
      { clear -Hdash. intros a. revert Hdash. generalize database_id.
        induction a as [|a IH]; intros [|c s] H; cbn [Py.str_drop]; try exact H.
        cbn [free_of] in H. apply andb_true_iff in H as [_ H]. now apply IH. }
      rewrite !remove_dashes_id by (apply Hpart || apply Hdrop).
      do 32 (destruct database_id as [|? database_id]; [discriminate Hlen|]).
      destruct database_id; [|discriminate Hlen]. reflexivity. }
    unfold clean_database_id.
    rewrite Hundash, (remove_dashes_id _ Hdash), (all_hex_not_url _ Hhex).
    now split.
Qed.

(** X22.  A link of the form [https://www.notion.so/<32 hex digits>...]
    gives the 32 digits, whatever follows them. *)
Theorem clean_database_id_link (hex tail : string) :
  String.length hex = 32 -> all_hex hex = true -> isalnum hex = true ->
  clean_database_id isalnum ("https://www.notion.so/" +:+ hex +:+ tail) = hex.
Proof.
  intros Hlen Hhex Halnum. destruct (all_hex_free _ Hhex) as [Hdash Hslash].
  unfold clean_database_id.
  rewrite !remove_dashes_app, (remove_dashes_id hex Hdash).
  change (remove_dashes "https://www.notion.so/") with "https://www.notion.so/".
  set (rest := hex +:+ remove_dashes tail).
  assert (Hurl : contains "notion.so" ("https://www.notion.so/" +:+ rest) = true)
    by reflexivity.
  rewrite Hurl.
  change ("https://www.notion.so/" +:+ rest)
    with ("https:" +:+ String "/" ("" +:+ String "/" ("www.notion.so" +:+ String "/" rest))).
  rewrite !split_slash_sep by reflexivity.
  subst rest. rewrite (split_slash_app hex _ Hslash).
  cbn [first_id_part String.length Nat.leb andb].
  assert (Hpart : forall p, Py.str_take 32 (hex +:+ p) = hex).
  { intros p. rewrite str_take_app_l by lia. apply PyMore.str_take_all. lia. }
  rewrite Hpart, PyMore.str_append_length, Hlen, (remove_dashes_id hex Hdash), Halnum.
  reflexivity.
Qed.

(** X23.  In a link whose last part is a title followed by the id, as in
    [https://www.notion.so/<title>-<32 hex digits>], the dashes are removed
    before the part is cut: the result is the first 32 characters of title
    and id together, which leaves out the end of the id. *)
Theorem clean_database_id_titled_link (title hex tail : string) :
  free_of "/" title = true -> free_of "-" title = true ->
  String.length hex = 32 -> all_hex hex = true ->
  isalnum (Py.str_take 32 (title +:+ hex)) = true ->
  clean_database_id isalnum
    ("https://www.notion.so/" +:+ title +:+ "-" +:+ hex +:+ tail)
  = Py.str_take 32 (title +:+ hex).
Proof.
  intros Hslash Hdash Hlen Hhex Halnum.
  destruct (all_hex_free _ Hhex) as [Hhdash Hhslash].
  unfold clean_database_id.
  rewrite !remove_dashes_app, (remove_dashes_id hex Hhdash),
    (remove_dashes_id title Hdash).
  change (remove_dashes "https://www.notion.so/") with "https://www.notion.so/".
  change (remove_dashes "-") with EmptyString.
  change ("" +:+ hex +:+ remove_dashes tail) with (hex +:+ remove_dashes tail).
  set (rest := title +:+ hex +:+ remove_dashes tail).
  assert (Hurl : contains "notion.so" ("https://www.notion.so/" +:+ rest) = true)
    by reflexivity.
  rewrite Hurl.
  change ("https://www.notion.so/" +:+ rest)
    with ("https:" +:+ String "/" ("" +:+ String "/" ("www.notion.so" +:+ String "/" rest))).
  rewrite !split_slash_sep by reflexivity.
  subst rest. rewrite (split_slash_app title _ Hslash), (split_slash_app hex _ Hhslash).
  cbn [hd first_id_part]. change (Nat.leb 32 (String.length "https:")) with false.
  change (Nat.leb 32 (String.length "")) with false.
  change (Nat.leb 32 (String.length "www.notion.so")) with false.
  cbn [andb].
  set (p := hd "" (split_slash (remove_dashes tail))).
  assert (Htake : Py.str_take 32 (title +:+ hex +:+ p) = Py.str_take 32 (title +:+ hex)).
  { rewrite str_append_assoc. apply str_take_app_l.
    rewrite PyMore.str_append_length. lia. }
  rewrite Htake.
  assert (Hfree : free_of "-" (Py.str_take 32 (title +:+ hex)) = true).
  { apply free_of_take. now rewrite free_of_app, Hdash, Hhdash. }
  rewrite (remove_dashes_id _ Hfree), Halnum, andb_true_r.
  rewrite !PyMore.str_append_length, Hlen.
  replace (Nat.leb 32 (String.length title + (32 + String.length p))) with true;
    [reflexivity|].
  symmetry. apply Nat.leb_le. lia.
Qed.

End CleanFacts.

End SetupFacts.

Lemma clean_database_id_plain_witness :
  Setup.clean_database_id Setup.ascii_isalnum
    (format_uuid "0123456789abcdef0123456789abcdef")
  = "0123456789abcdef0123456789abcdef".
Proof.
  apply (proj2 (proj2 (SetupFacts.clean_database_id_plain Setup.ascii_isalnum
                         "0123456789abcdef0123456789abcdef")));
    reflexivity.
Defined.

Lemma clean_database_id_link_witness :
  Setup.clean_database_id Setup.ascii_isalnum
    ("https://www.notion.so/" +:+ "0123456789abcdef0123456789abcdef" +:+ "?v=77")
  = "0123456789abcdef0123456789abcdef".
Proof.
  apply (SetupFacts.clean_database_id_link Setup.ascii_isalnum
           "0123456789abcdef0123456789abcdef" "?v=77"); reflexivity.
Defined.

Lemma clean_database_id_titled_link_witness :
  Setup.clean_database_id Setup.ascii_isalnum
    ("https://www.notion.so/" +:+ "Notes" +:+ "-"
       +:+ "0123456789abcdef0123456789abcdef" +:+ "")
  = Py.str_take 32 ("Notes" +:+ "0123456789abcdef0123456789abcdef").
Proof.
  apply (SetupFacts.clean_database_id_titled_link Setup.ascii_isalnum
           "Notes" "0123456789abcdef0123456789abcdef" ""); reflexivity.
Defined.

Example titled_link_loses_digits :
  Setup.clean_database_id Setup.ascii_isalnum
    "https://www.notion.so/Notes-0123456789abcdef0123456789abcdef"
  = "Notes0123456789abcdef0123456789a".
Proof. reflexivity. Qed.

(** ** main.py: [list_command] and [reset_command] *)

Module CommandFacts.
Import Commands.


Section ListFacts.
Context {P : Platform}.


(** X26.  A confirmed [reset_command] removes the state file, so that the
    next run starts from the empty state, asks the destination for the
    existing ids once, and uploads no record that the destination reports;
    a reset that is not confirmed leaves the file as it is. *)
Theorem reset_then_sync (client : NotionClient) (db : database)
    (file : option state_file) (w : world) :
  reset_command false file = file /\
  reset_command true file = None /\
  load_sync_state (reset_command true file) = Returns SyncState_default /\
  (w_state w = SyncState_default ->
   let new := new_events (w_trace w) (w_trace (sync_once client db w).2) in
   list_calls new = 1 /\
   (forall t : Transcription,
       Upload t ∈ new -> id t ∉ (get_all_synced_ids (w_env w)).2)).
Proof.
  split; [reflexivity|]. split; [reflexivity|]. split; [reflexivity|].
  intros Hstate new. subst new.
  assert (Hflag : notion_cache_populated (w_state w) = false) by now rewrite Hstate.
  unfold sync_once.
  destruct (do_sync_trace client db (bootstrap w)) as (evs & Htrace & Hevs).
  pose proof (do_sync_new_traffic client db (bootstrap w)) as (_ & _ & Hcalls).
  cbv zeta in Hcalls. rewrite Htrace in *.
  unfold new_events in Hcalls. rewrite drop_app_length in Hcalls.
  destruct (bootstrap_events w) as (evs0 & Htrace0 & Hevs0 & Hcalls0).
  rewrite Htrace0, Hflag in *.
  unfold new_events. rewrite <- app_assoc, drop_app_length. split.
  - rewrite list_calls_app. lia.
  - intros t Ht. apply elem_of_uploads in Ht.
    unfold uploads in *. rewrite omap_app, Hevs0, Hevs in Ht.
    apply elem_of_take_1 in Ht. unfold attempted in Ht.
    destruct (read_transcriptions _ _) as [ts|].
    + apply unsynced_elem in Ht as [_ Hnot].
      rewrite (bootstrap_synced_ids w Hflag) in Hnot. set_solver.
    + now apply elem_of_nil in Ht.
Qed.

End ListFacts.

End CommandFacts.


Lemma reset_then_sync_witness :
  let w := Scenarios.remote_knows_first in
  list_calls (new_events (w_trace w)
                (w_trace (sync_once (P:=Scripted.platform) Scripted.client
                            Scripted.three_rows w).2))
  = 1.
Proof.
  intros w.
  apply (proj2 (proj2 (proj2 (CommandFacts.reset_then_sync (P:=Scripted.platform)
                                Scripted.client Scripted.three_rows None w)))
           eq_refl).
Defined.

(** ** voiceink_reader.py: finding the database *)

Module FinderFacts.
Import Finder.






End FinderFacts.

